(** * projectweek2.ino: RFM69HCW receiver sketch

    A shallow embedding of the Arduino sketch [projectweek2.ino] as
    interaction trees.  Every call the sketch makes into the Arduino core,
    the SSD1306 display driver or the RadioHead RF69 driver is an event;
    the drivers themselves are not part of the sketch and are given no
    meaning here.  The environment (the board, the button, the radio)
    answers the calls that return something. *)

From Stdlib Require Import ZArith List Bool String Ascii Lia QArith.
From Stdlib Require Import Strings.Byte.
From ITree Require Import ITree ITreeFacts.
Import ListNotations.
Import ITreeNotations.
Local Open Scope Z_scope.
Local Open Scope itree_scope.

(** ** The board *)

(** Board pins the sketch names (the Arduino core's [D2], [A0], ...). *)
Inductive board_pin : Type := D2 | D3 | D8 | D10 | A0 | A2 | A3 | A7 | B1.

Definition board_pin_eqb (p q : board_pin) : bool :=
  match p, q with
  | D2, D2 | D3, D3 | D8, D8 | D10, D10 | A0, A0
  | A2, A2 | A3, A3 | A7, A7 | B1, B1 => true
  | _, _ => false
  end.

(** [HIGH] and [LOW] of the Arduino core. *)
Inductive level : Type := LOW | HIGH.

(** Pin modes of the Arduino core the sketch uses. *)
Inductive pin_mode : Type := INPUT | OUTPUT | INPUT_PULLUP.

(** Constants of the SSD1306 driver the sketch names. *)
Inductive vcc_source : Type := SSD1306_EXTERNALVCC | SSD1306_SWITCHCAPVCC.
Inductive color : Type := SSD1306_BLACK | SSD1306_WHITE | SSD1306_INVERSE.

(** An excerpt of RadioHead's [RH_RF69::ModemConfigChoice]; the sketch
    names [GFSK_Rb250Fd250]. *)
Inductive ModemConfigChoice : Type :=
  FSK_Rb250Fd250 | GFSK_Rb250Fd250 | OOK_Rb32Bw64.

(** ** The sketch's [#define]s (lines 26-56) *)

Definition RF69_FREQ : Q := 868.00.

Definition RFM69_CS : board_pin := D10.
Definition RFM69_INT : board_pin := D2.
Definition RFM69_RST : board_pin := D8.

Definition PW_BUTA : board_pin := A0.
Definition PW_BUTB : board_pin := B1.

Definition RED_LED : board_pin := A3.
Definition GRN_LED : board_pin := A2.
Definition BI_LEDA : board_pin := A7.
Definition BI_LEDB : board_pin := D3.

Definition LED_LOW : Z := 10.
Definition LED_HIGH : Z := 60.

(** [SMOL_OLED] is defined, so the 96x16 branch is the one compiled. *)
Definition SCREEN_WIDTH : Z := 96.
Definition SCREEN_HEIGHT : Z := 16.
Definition SCREEN_ADDRESS : Z := 0x3C.

(** [RH_RF69_MAX_MESSAGE_LEN] of RadioHead's RH_RF69.h: the size of the
    receive buffer [buf] in [loop_receiver]. *)
Definition RH_RF69_MAX_MESSAGE_LEN : Z := 60.

(** ** Calls into the core and the drivers *)

(** One constructor per function the sketch calls, with the arguments as
    the function receives them. *)
Inductive op : Type :=
| DisplayBegin (vcc : vcc_source) (addr : Z)
| DisplayClearDisplay
| DisplayDisplay
| DisplaySetCursor (x y : Z)
| DisplaySetTextSize (s : Z)
| DisplaySetTextColor (c : color)
| DisplayPrint (s : string)
| DisplayPrintInt (v : Z)
| DisplayPrintln (s : string)
| DisplayFillRect (x y w h : Z) (c : color)
| DisplayDrawRect (x y w h : Z) (c : color)
| PinMode (p : board_pin) (m : pin_mode)
| DigitalWrite (p : board_pin) (l : level)
| DigitalRead (p : board_pin)
| AnalogWrite (p : board_pin) (v : Z)
| Delay (ms : Z)
| SerialBegin (baud : Z)
| SerialPrintln (v : Z)
| Rf69Init
| Rf69SetFrequency (centre : Q)
| Rf69SetTxPower (power : Z) (ishighpowermodule : bool)
| Rf69SetModemConfig (index : ModemConfigChoice)
| Rf69SetEncryptionKey (key : list byte)
| Rf69Available
| Rf69Recv (len : Z)
| Rf69LastRssi
| Rf69Send (data : list byte) (len : Z)
| Rf69WaitPacketSent.

(** What a call gives back to the sketch.  [recv] gives [Some payload]
    when it returns [true] (the payload is then in [buf], its length in
    [len]) and [None] when it returns [false]; the status results of
    [setFrequency], [setModemConfig], [send] and [waitPacketSent] are
    there although the sketch drops them. *)
Definition ret_type (c : op) : Type :=
  match c with
  | DisplayBegin _ _ => bool
  | DigitalRead _ => level
  | Rf69Init => bool
  | Rf69SetFrequency _ => bool
  | Rf69SetModemConfig _ => bool
  | Rf69Available => bool
  | Rf69Recv _ => option (list byte)
  | Rf69LastRssi => Z
  | Rf69Send _ _ => bool
  | Rf69WaitPacketSent => bool
  | _ => unit
  end.

(** The event signature of the sketch.  The global objects [rf69] and
    [display] (lines 60-63) are constructed before [setup] runs; the
    constructors are handed pin numbers and sizes and are no calls of
    [setup] or [loop]. *)
Variant hwE : Type -> Type :=
| Do (c : op) : hwE (ret_type c).

Definition call_ (c : op) : itree hwE (ret_type c) := ITree.trigger (Do c).

(** The conversion of an [int] to [int16_t] at a call whose parameter is an
    [int16_t]: the value modulo 2^16, in -32768 .. 32767. *)
Definition int16_t (z : Z) : Z := (z + 2 ^ 15) mod 2 ^ 16 - 2 ^ 15.

Module display.
Definition begin (vcc : vcc_source) (addr : Z) : itree hwE bool :=
  call_ (DisplayBegin vcc addr).
Definition clearDisplay : itree hwE unit := call_ DisplayClearDisplay.
Definition display : itree hwE unit := call_ DisplayDisplay.
(** [setCursor(int16_t x, int16_t y)]. *)
Definition setCursor (x y : Z) : itree hwE unit :=
  call_ (DisplaySetCursor (int16_t x) (int16_t y)).
Definition setTextSize (s : Z) : itree hwE unit := call_ (DisplaySetTextSize s).
Definition setTextColor (c : color) : itree hwE unit :=
  call_ (DisplaySetTextColor c).
Definition print (s : string) : itree hwE unit := call_ (DisplayPrint s).
Definition print_int (v : Z) : itree hwE unit := call_ (DisplayPrintInt v).
Definition println (s : string) : itree hwE unit := call_ (DisplayPrintln s).
(** [fillRect(int16_t x, int16_t y, int16_t w, int16_t h, uint16_t color)]:
    the sketch's [int]s are narrowed to [int16_t] at the call. *)
Definition fillRect (x y w h : Z) (c : color) : itree hwE unit :=
  call_ (DisplayFillRect (int16_t x) (int16_t y) (int16_t w) (int16_t h) c).
(** [drawRect], with the parameters of [fillRect]. *)
Definition drawRect (x y w h : Z) (c : color) : itree hwE unit :=
  call_ (DisplayDrawRect (int16_t x) (int16_t y) (int16_t w) (int16_t h) c).
End display.

Module Serial.
Definition begin (baud : Z) : itree hwE unit := call_ (SerialBegin baud).
Definition println (v : Z) : itree hwE unit := call_ (SerialPrintln v).
End Serial.

Module rf69.
Definition init : itree hwE bool := call_ Rf69Init.
Definition setFrequency (centre : Q) : itree hwE bool :=
  call_ (Rf69SetFrequency centre).
Definition setTxPower (power : Z) (ishighpowermodule : bool) : itree hwE unit :=
  call_ (Rf69SetTxPower power ishighpowermodule).
Definition setModemConfig (index : ModemConfigChoice) : itree hwE bool :=
  call_ (Rf69SetModemConfig index).
Definition setEncryptionKey (key : list byte) : itree hwE unit :=
  call_ (Rf69SetEncryptionKey key).
Definition available : itree hwE bool := call_ Rf69Available.
Definition recv (len : Z) : itree hwE (option (list byte)) :=
  call_ (Rf69Recv len).
Definition lastRssi : itree hwE Z := call_ Rf69LastRssi.
Definition send (data : list byte) (len : Z) : itree hwE bool :=
  call_ (Rf69Send data len).
Definition waitPacketSent : itree hwE bool := call_ Rf69WaitPacketSent.
End rf69.

Definition pinMode (p : board_pin) (m : pin_mode) : itree hwE unit :=
  call_ (PinMode p m).
Definition digitalWrite (p : board_pin) (l : level) : itree hwE unit :=
  call_ (DigitalWrite p l).
Definition digitalRead (p : board_pin) : itree hwE level :=
  call_ (DigitalRead p).
Definition analogWrite (p : board_pin) (v : Z) : itree hwE unit :=
  call_ (AnalogWrite p v).
Definition delay (ms : Z) : itree hwE unit := call_ (Delay ms).

(** ** The Arduino core's [map] *)

Module WMath.

(** A C [long] of the target (32 bits, two's complement): the value of
    an arithmetic result once it is stored in a [long]. *)
Definition wrap_long (z : Z) : Z := (z + 2 ^ 31) mod 2 ^ 32 - 2 ^ 31.

(** Modelled from the spec: [map] is the Arduino core's function
    (WMath.cpp), which is not under src/; the sketch only calls it.  It is
    the integer linear map
    [(x - in_min) * (out_max - out_min) / (in_max - in_min) + out_min]
    in [long] arithmetic with C's division, which truncates toward zero;
    nothing clamps the result to [out_min .. out_max].  The ESP32 core
    returns -1 for an empty input range. *)
Definition map (x in_min in_max out_min out_max : Z) : Z :=
  let run := wrap_long (in_max - in_min) in
  if run =? 0 then -1
  else
    let rise := wrap_long (out_max - out_min) in
    let delta := wrap_long (x - in_min) in
    wrap_long (wrap_long (wrap_long (delta * rise) ÷ run) + out_min).

End WMath.

(** ** The sketch *)

(** C's [if (b) { t }] with no [else]. *)
Definition when (b : bool) (t : itree hwE unit) : itree hwE unit :=
  if b then t else Ret tt.

Definition level_eqb (a b : level) : bool :=
  match a, b with
  | LOW, LOW | HIGH, HIGH => true
  | _, _ => false
  end.

(** [key] of [setup] (lines 138-139). *)
Definition key : list byte :=
  [x01; x02; x03; x04; x05; x06; x07; x08;
   x01; x02; x03; x04; x05; x06; x07; x08].

(** The body of the lock-out loop (lines 107-110). *)
Definition flash_red : itree hwE unit :=
  digitalWrite RED_LED HIGH ;;
  delay 250 ;;
  digitalWrite RED_LED LOW ;;
  delay 250.

(** The radio lock-out (lines 98-111): the message, then [for(;;)]. *)
Definition lockout : itree hwE unit :=
  display.clearDisplay ;;
  display.setCursor 0 (SCREEN_HEIGHT ÷ 2) ;;
  display.setTextSize 1 ;;
  display.setTextColor SSD1306_WHITE ;;
  display.println "Radio DISABLED" ;;
  display.display ;;
  ITree.forever flash_red.

(** [setup] (lines 66-145).  [for (;;);] is the silent divergence
    [ITree.spin]. *)
Definition setup : itree hwE unit :=
  ok <- display.begin SSD1306_SWITCHCAPVCC 0x3C ;;
  when (negb ok) ITree.spin ;;
  display.clearDisplay ;;
  display.display ;;
  pinMode RED_LED OUTPUT ;;
  pinMode GRN_LED OUTPUT ;;
  pinMode BI_LEDA OUTPUT ;;
  pinMode BI_LEDB OUTPUT ;;
  pinMode PW_BUTA INPUT_PULLUP ;;
  pinMode RFM69_RST OUTPUT ;;
  digitalWrite GRN_LED LOW ;;
  digitalWrite RED_LED LOW ;;
  digitalWrite BI_LEDA LOW ;;
  digitalWrite BI_LEDB LOW ;;
  digitalWrite RFM69_RST LOW ;;
  buta <- digitalRead PW_BUTA ;;
  when (level_eqb buta LOW) lockout ;;
  Serial.begin 115200 ;;
  delay 1000 ;;
  digitalWrite GRN_LED LOW ;;
  started <- rf69.init ;;
  when started (analogWrite GRN_LED LED_LOW) ;;
  rf69.setFrequency RF69_FREQ ;;
  rf69.setTxPower (-2) true ;;
  rf69.setModemConfig GFSK_Rb250Fd250 ;;
  rf69.setEncryptionKey key.

(** The local [barwidth] of [display_rssi] (line 150); [int] and [long]
    have the same 32 bits on the target, so storing [map]'s [long] in the
    [int] changes nothing. *)
Definition barwidth (rssi_val : Z) : Z :=
  WMath.map rssi_val (-100) (-20) 0 SCREEN_WIDTH.

(** [display_rssi] (lines 147-176), the [SMOL_OLED] branch. *)
Definition display_rssi (rssi_val : Z) : itree hwE unit :=
  display.clearDisplay ;;
  display.fillRect 0 0 (barwidth rssi_val) 6 SSD1306_WHITE ;;
  display.drawRect 0 0 SCREEN_WIDTH 6 SSD1306_WHITE ;;
  display.setCursor 0 9 ;;
  display.setTextSize 1 ;;
  display.setTextColor SSD1306_WHITE ;;
  display.print "RSSI: " ;;
  display.print_int rssi_val ;;
  display.println " dBm" ;;
  display.display.

(** [loop_receiver] (lines 179-228); [len] starts as [sizeof(buf)], and
    the [int16_t] of [lastRssi] widens to the [int] [rssi_val]. *)
Definition loop_receiver : itree hwE unit :=
  avail <- rf69.available ;;
  when avail
    (got <- rf69.recv RH_RF69_MAX_MESSAGE_LEN ;;
     match got with
     | Some _ =>
         analogWrite GRN_LED LED_HIGH ;;
         rssi_val <- rf69.lastRssi ;;
         Serial.println rssi_val ;;
         display_rssi rssi_val ;;
         delay 50 ;;
         analogWrite GRN_LED LED_LOW
     | None =>
         digitalWrite BI_LEDB HIGH ;;
         delay 50 ;;
         digitalWrite BI_LEDB LOW
     end).

(** [data] of [loop_transmitter]: the string with its terminating NUL,
    which [sizeof] counts. *)
Definition data : list byte :=
  list_byte_of_string "Welcome to Project Week 2" ++ [x00].

(** [loop_transmitter] (lines 230-236). *)
Definition loop_transmitter : itree hwE unit :=
  rf69.send data (Z.of_nat (List.length data)) ;;
  rf69.waitPacketSent ;;
  delay 20.

(** [loop] (lines 238-242): the call of [loop_transmitter] is commented
    out. *)
Definition loop : itree hwE unit :=
  loop_receiver.

(** The Arduino core's [main]: [setup()] once, then [loop()] for ever. *)
Definition sketch : itree hwE unit :=
  setup ;;
  ITree.forever loop.

(** ** Running the sketch against an environment *)

(** A call with the answer it got. *)
Record call : Type := Call { call_op : op; call_ans : ret_type call_op }.

(** The environment: what a call answers, given the calls made since
    power-on. *)
Definition oracle : Type := list call -> forall c : op, ret_type c.

(** [exec env fuel h t] runs [t] for at most [fuel] steps (calls and silent
    steps) after the calls [h]; it gives the calls made so far and, when [t]
    has returned, its result with the fuel left. *)
Fixpoint exec {R : Type} (env : oracle) (fuel : nat) (h : list call)
    (t : itree hwE R) {struct fuel} : list call * option (R * nat) :=
  match observe t with
  | RetF r => (h, Some (r, fuel))
  | TauF t' =>
      match fuel with
      | O => (h, None)
      | S n => exec env n h t'
      end
  | VisF e k =>
      match fuel with
      | O => (h, None)
      | S n =>
          match e in hwE X return (X -> itree hwE R) -> _ with
          | Do c => fun k' =>
              let x := env h c in exec env n (h ++ [Call c x]) (k' x)
          end k
      end
  end.

(** The calls made, and the result when the program has returned. *)
Definition run {R : Type} (env : oracle) (fuel : nat) (h : list call)
    (t : itree hwE R) : list call * option R :=
  let (h', r) := exec env fuel h t in (h', option_map fst r).

Definition trace {R : Type} (env : oracle) (fuel : nat) (t : itree hwE R)
  : list op :=
  List.map call_op (fst (run env fuel [] t)).

(** A test bench: a display that starts or not, a button level, a radio
    that starts or not and, for the service loop, whether a frame is
    waiting, what [recv] makes of it and its signal strength. *)
Definition bench (display_ok : bool) (buta : level) (radio_ok : bool)
    (waiting : bool) (frame : option (list byte)) (rssi : Z) : oracle :=
  fun _ c =>
    match c return ret_type c with
    | DisplayBegin _ _ => display_ok
    | DigitalRead _ => buta
    | Rf69Init => radio_ok
    | Rf69SetFrequency _ => true
    | Rf69SetModemConfig _ => true
    | Rf69Available => waiting
    | Rf69Recv _ => frame
    | Rf69LastRssi => rssi
    | Rf69Send _ _ => true
    | Rf69WaitPacketSent => true
    | _ => tt
    end.

(** ** The calls of a start-up *)

(** What [setup] does before it reads the button, once the display has
    started (lines 69-92). *)
Definition boot_calls : list call :=
  [ Call (DisplayBegin SSD1306_SWITCHCAPVCC 0x3C) true;
    Call DisplayClearDisplay tt;
    Call DisplayDisplay tt;
    Call (PinMode RED_LED OUTPUT) tt;
    Call (PinMode GRN_LED OUTPUT) tt;
    Call (PinMode BI_LEDA OUTPUT) tt;
    Call (PinMode BI_LEDB OUTPUT) tt;
    Call (PinMode PW_BUTA INPUT_PULLUP) tt;
    Call (PinMode RFM69_RST OUTPUT) tt;
    Call (DigitalWrite GRN_LED LOW) tt;
    Call (DigitalWrite RED_LED LOW) tt;
    Call (DigitalWrite BI_LEDA LOW) tt;
    Call (DigitalWrite BI_LEDB LOW) tt;
    Call (DigitalWrite RFM69_RST LOW) tt ].

(** The lock-out message (lines 98-103). *)
Definition lockout_calls : list call :=
  [ Call DisplayClearDisplay tt;
    Call (DisplaySetCursor 0 8) tt;
    Call (DisplaySetTextSize 1) tt;
    Call (DisplaySetTextColor SSD1306_WHITE) tt;
    Call (DisplayPrintln "Radio DISABLED") tt;
    Call DisplayDisplay tt ].

(** One turn of the lock-out loop: red LED on, 250 ms, off, 250 ms. *)
Definition flash_calls : list call :=
  [ Call (DigitalWrite RED_LED HIGH) tt;
    Call (Delay 250) tt;
    Call (DigitalWrite RED_LED LOW) tt;
    Call (Delay 250) tt ].

Fixpoint flashes (k : nat) : list call :=
  match k with
  | O => []
  | S k' => flash_calls ++ flashes k'
  end.

(** Everything a locked-out board has done after [k] flashes. *)
Definition locked_out (k : nat) : list call :=
  boot_calls ++ [Call (DigitalRead PW_BUTA) LOW] ++ lockout_calls ++ flashes k.

(** What [setup] has done when it is about to start the radio, the button
    not being held (lines 69-123). *)
Definition pre_radio_calls : list call :=
  boot_calls ++
  [ Call (DigitalRead PW_BUTA) HIGH;
    Call (SerialBegin 115200) tt;
    Call (Delay 1000) tt;
    Call (DigitalWrite GRN_LED LOW) tt ].

(** Calls on the radio driver. *)
Definition is_radio_op (c : op) : bool :=
  match c with
  | Rf69Init | Rf69SetFrequency _ | Rf69SetTxPower _ _
  | Rf69SetModemConfig _ | Rf69SetEncryptionKey _ | Rf69Available
  | Rf69Recv _ | Rf69LastRssi | Rf69Send _ _ | Rf69WaitPacketSent => true
  | _ => false
  end.

(** Calls on the display driver. *)
Definition is_display_op (c : op) : bool :=
  match c with
  | DisplayBegin _ _ | DisplayClearDisplay | DisplayDisplay
  | DisplaySetCursor _ _ | DisplaySetTextSize _ | DisplaySetTextColor _
  | DisplayPrint _ | DisplayPrintInt _ | DisplayPrintln _
  | DisplayFillRect _ _ _ _ _ | DisplayDrawRect _ _ _ _ _ => true
  | _ => false
  end.

(** Calls on the serial port. *)
Definition is_serial_op (c : op) : bool :=
  match c with
  | SerialBegin _ | SerialPrintln _ => true
  | _ => false
  end.

(** Calls that drive pin [p]. *)
Definition drives (p : board_pin) (c : op) : bool :=
  match c with
  | DigitalWrite q _ | AnalogWrite q _ => board_pin_eqb p q
  | _ => false
  end.

(** Calls that only the transmitter body makes. *)
Definition is_transmit_op (c : op) : bool :=
  match c with
  | Rf69Send _ _ | Rf69WaitPacketSent => true
  | _ => false
  end.

(** The calls in [h] that satisfy [f], in order. *)
Definition ops_where (f : op -> bool) (h : list call) : list op :=
  filter f (List.map call_op h).

(** No call in [h] satisfies [f]. *)
Definition none_where (f : op -> bool) (h : list call) : bool :=
  forallb (fun c => negb (f (call_op c))) h.

(** The calls of [h'] made after those of [h]. *)
Definition calls_since (h h' : list call) : list call :=
  skipn (List.length h) h'.

(** The radio configuration of [setup] (lines 129-140). *)
Definition radio_config_ops : list op :=
  [ Rf69SetFrequency RF69_FREQ;
    Rf69SetTxPower (-2) true;
    Rf69SetModemConfig GFSK_Rb250Fd250;
    Rf69SetEncryptionKey key ].

(** The calls of [display_rssi rssi_val]. *)
Definition display_rssi_calls (rssi_val : Z) : list call :=
  [ Call DisplayClearDisplay tt;
    Call (DisplayFillRect 0 0 (int16_t (barwidth rssi_val)) 6 SSD1306_WHITE)
      tt;
    Call (DisplayDrawRect 0 0 SCREEN_WIDTH 6 SSD1306_WHITE) tt;
    Call (DisplaySetCursor 0 9) tt;
    Call (DisplaySetTextSize 1) tt;
    Call (DisplaySetTextColor SSD1306_WHITE) tt;
    Call (DisplayPrint "RSSI: ") tt;
    Call (DisplayPrintInt rssi_val) tt;
    Call (DisplayPrintln " dBm") tt;
    Call DisplayDisplay tt ].

(** The calls of one turn of [loop_receiver] on a frame that [recv]
    accepts, with payload [payload] and signal strength [rssi_val]. *)
Definition good_frame_calls (payload : list byte) (rssi_val : Z) : list call :=
  [ Call Rf69Available true;
    Call (Rf69Recv RH_RF69_MAX_MESSAGE_LEN) (Some payload);
    Call (AnalogWrite GRN_LED LED_HIGH) tt;
    Call Rf69LastRssi rssi_val;
    Call (SerialPrintln rssi_val) tt ] ++
  display_rssi_calls rssi_val ++
  [ Call (Delay 50) tt;
    Call (AnalogWrite GRN_LED LED_LOW) tt ].

(** The calls of one turn of [loop_receiver] on a frame that [recv]
    rejects. *)
Definition bad_frame_calls : list call :=
  [ Call Rf69Available true;
    Call (Rf69Recv RH_RF69_MAX_MESSAGE_LEN) None;
    Call (DigitalWrite BI_LEDB HIGH) tt;
    Call (Delay 50) tt;
    Call (DigitalWrite BI_LEDB LOW) tt ].

(** ** Reading a history *)

(** The signal strengths [lastRssi()] has answered, in order. *)
Definition rssi_reads (h : list call) : list Z :=
  flat_map
    (fun c : call =>
       let (o, a) := c in
       match o return ret_type o -> list Z with
       | Rf69LastRssi => fun v => [v]
       | _ => fun _ => []
       end a)
    h.

(** The numbers printed on the serial port, in order. *)
Definition serial_lines (h : list call) : list Z :=
  flat_map
    (fun c : call =>
       match call_op c with
       | SerialPrintln v => [v]
       | _ => []
       end)
    h.

(** Calls that put text on the display. *)
Definition is_print_op (c : op) : bool :=
  match c with
  | DisplayPrint _ | DisplayPrintInt _ | DisplayPrintln _ => true
  | _ => false
  end.

(** Calls that act on the board: everything but the questions put to the
    radio and the button. *)
Definition is_output_op (c : op) : bool :=
  match c with
  | Rf69Available | Rf69Recv _ | Rf69LastRssi | DigitalRead _ => false
  | _ => true
  end.

Definition is_recv_or_rssi (c : op) : bool :=
  match c with
  | Rf69Recv _ | Rf69LastRssi => true
  | _ => false
  end.

(** ** The stages of a start-up *)

Inductive stage : Type :=
  ConfigurePins | Interlock | InitDisplay | InitRadio | InitSerial.

Definition stage_eqb (a b : stage) : bool :=
  match a, b with
  | ConfigurePins, ConfigurePins | Interlock, Interlock
  | InitDisplay, InitDisplay | InitRadio, InitRadio
  | InitSerial, InitSerial => true
  | _, _ => false
  end.

(** The stage a call belongs to: [pinMode] configures a pin, reading the
    button is the interlock, [display.begin], [Serial.begin] and the
    [rf69] set-up calls initialise their device. *)
Definition stage_of (c : op) : option stage :=
  match c with
  | PinMode _ _ => Some ConfigurePins
  | DigitalRead _ => Some Interlock
  | DisplayBegin _ _ => Some InitDisplay
  | Rf69Init | Rf69SetFrequency _ | Rf69SetTxPower _ _
  | Rf69SetModemConfig _ | Rf69SetEncryptionKey _ => Some InitRadio
  | SerialBegin _ => Some InitSerial
  | _ => None
  end.

(** Consecutive repetitions count once. *)
Fixpoint squash (l : list stage) : list stage :=
  match l with
  | [] => []
  | a :: l' =>
      match squash l' with
      | [] => [a]
      | b :: r => if stage_eqb a b then b :: r else a :: b :: r
      end
  end.

Fixpoint stages_of (l : list op) : list stage :=
  match l with
  | [] => []
  | c :: l' =>
      match stage_of c with
      | Some s => s :: stages_of l'
      | None => stages_of l'
      end
  end.

(** The stages a run went through, in order. *)
Definition stage_sequence (l : list op) : list stage :=
  squash (stages_of l).

(** The order of the stages as the specification gives it. *)
Definition claimed_stages : list stage :=
  [ConfigurePins; Interlock; InitDisplay; InitRadio; InitSerial].

(** The widths [fillRect] has been given, in order. *)
Definition fill_widths (h : list call) : list Z :=
  flat_map
    (fun c : call =>
       match call_op c with
       | DisplayFillRect _ _ w _ _ => [w]
       | _ => []
       end)
    h.

(** ** Whole runs *)

(** Everything a [setup] that returns has done: the radio's [init] answered
    [started], [setFrequency] answered [tuned] and [setModemConfig]
    answered [configured]. *)
Definition started_calls (started tuned configured : bool) : list call :=
  pre_radio_calls ++
  [Call Rf69Init started] ++
  (if started then [Call (AnalogWrite GRN_LED LED_LOW) tt] else []) ++
  [ Call (Rf69SetFrequency RF69_FREQ) tuned;
    Call (Rf69SetTxPower (-2) true) tt;
    Call (Rf69SetModemConfig GFSK_Rb250Fd250) configured;
    Call (Rf69SetEncryptionKey key) tt ].

(** The three ways a start-up can go. *)
Definition setup_shape (h : list call) : Prop :=
  h = [Call (DisplayBegin SSD1306_SWITCHCAPVCC 0x3C) false] \/
  (exists k, h = locked_out k) \/
  (exists started tuned configured, h = started_calls started tuned configured).

(** The three ways a turn of the receiver can go. *)
Definition turn_shape (made : list call) : Prop :=
  made = [Call Rf69Available false] \/
  made = bad_frame_calls \/
  (exists payload rssi_val, made = good_frame_calls payload rssi_val).

(** ** Orders in a history *)

(** No call of [h] satisfies [need]. *)
Definition never (need : call -> bool) (h : list call) : bool :=
  forallb (fun c => negb (need c)) h.

(** Every call of [h] that satisfies [need] comes after a call that
    satisfies [ready]; [seen] says that one has come before [h]. *)
Fixpoint guarded (ready need : call -> bool) (seen : bool) (h : list call)
  : bool :=
  match h with
  | [] => true
  | c :: h' =>
      (negb (need c) || seen) && guarded ready need (seen || ready c) h'
  end.

(** [display.begin] has answered [true]. *)
Definition display_began (c : call) : bool :=
  let (o, a) := c in
  match o return ret_type o -> bool with
  | DisplayBegin _ _ => fun ok => ok
  | _ => fun _ => false
  end a.

(** A call on the display other than [begin]. *)
Definition uses_display (c : call) : bool :=
  match call_op c with
  | DisplayBegin _ _ => false
  | o => is_display_op o
  end.

Definition serial_opened (c : call) : bool :=
  match call_op c with
  | SerialBegin _ => true
  | _ => false
  end.

Definition uses_serial (c : call) : bool :=
  match call_op c with
  | SerialPrintln _ => true
  | _ => false
  end.

Definition radio_inited (c : call) : bool :=
  match call_op c with
  | Rf69Init => true
  | _ => false
  end.

(** A call on the radio other than [init]. *)
Definition uses_radio (c : call) : bool :=
  match call_op c with
  | Rf69Init => false
  | o => is_radio_op o
  end.

(** Any call on the radio. *)
Definition on_radio (c : call) : bool := is_radio_op (call_op c).

(** The button [PW_BUTA] has been read and was not held. *)
Definition button_released (c : call) : bool :=
  let (o, a) := c in
  match o return ret_type o -> bool with
  | DigitalRead p => fun l => board_pin_eqb p PW_BUTA && level_eqb l HIGH
  | _ => fun _ => false
  end a.

(** [pinMode(p, OUTPUT)]. *)
Definition made_output (p : board_pin) (c : call) : bool :=
  match call_op c with
  | PinMode q OUTPUT => board_pin_eqb p q
  | _ => false
  end.

(** [pinMode(p, INPUT)] or [pinMode(p, INPUT_PULLUP)]. *)
Definition made_input (p : board_pin) (c : call) : bool :=
  match call_op c with
  | PinMode q INPUT | PinMode q INPUT_PULLUP => board_pin_eqb p q
  | _ => false
  end.

Definition drives_pin (p : board_pin) (c : call) : bool :=
  drives p (call_op c).

Definition reads_pin (p : board_pin) (c : call) : bool :=
  match call_op c with
  | DigitalRead q => board_pin_eqb p q
  | _ => false
  end.

(** ** The receive protocol *)

(** Where the sketch stands with the radio: nothing known to wait, a frame
    known to wait ([available] said [true]), a frame taken ([recv] said
    [true]). *)
Inductive rx_state : Type := Polling | Waiting | Received.

(** [recv] is allowed when a frame is known to wait, [lastRssi] when one
    has been taken; [available] may be asked at any time. *)
Definition rx_step (s : rx_state) (c : call) : option rx_state :=
  let (o, a) := c in
  match o return ret_type o -> option rx_state with
  | Rf69Available => fun b => Some (if b then Waiting else Polling)
  | Rf69Recv _ => fun got =>
      match s with
      | Waiting => Some (match got with Some _ => Received | None => Polling end)
      | _ => None
      end
  | Rf69LastRssi => fun _ =>
      match s with
      | Received => Some Received
      | _ => None
      end
  | _ => fun _ => Some s
  end a.

Fixpoint rx_check (s : rx_state) (h : list call) : option rx_state :=
  match h with
  | [] => Some s
  | c :: h' =>
      match rx_step s c with
      | Some s' => rx_check s' h'
      | None => None
      end
  end.

(** ** Time and indicators *)

(** The milliseconds spent in [delay]. *)
Definition delay_total (h : list call) : Z :=
  fold_right
    (fun (c : call) (t : Z) =>
       match call_op c with
       | Delay ms => ms + t
       | _ => t
       end)
    0 h.

(** The last call that drove pin [p]. *)
Definition last_drive (p : board_pin) (h : list call) : option op :=
  hd_error (rev (ops_where (drives p) h)).

(** The indicators between two turns: the red LED and both halves of the
    bi-colour LED driven low, the green LED off or at its low PWM level. *)
Definition resting (h : list call) : bool :=
  match last_drive RED_LED h, last_drive BI_LEDA h, last_drive BI_LEDB h with
  | Some (DigitalWrite _ LOW), Some (DigitalWrite _ LOW),
    Some (DigitalWrite _ LOW) =>
      match last_drive GRN_LED h with
      | Some (DigitalWrite _ LOW) => true
      | Some (AnalogWrite _ v) => v =? LED_LOW
      | _ => false
      end
  | _, _, _ => false
  end.

(** The last call on the display was [display()]: what has been drawn is
    on the screen. *)
Definition flushed (h : list call) : bool :=
  match rev (ops_where is_display_op h) with
  | DisplayDisplay :: _ => true
  | _ => false
  end.

(** The numbers printed on the display, in order. *)
Definition displayed_values (h : list call) : list Z :=
  flat_map
    (fun c : call =>
       match call_op c with
       | DisplayPrintInt v => [v]
       | _ => []
       end)
    h.

(** ** Between two turns *)

(** The question that opens a turn of the receiver. *)
Definition is_poll (c : call) : bool :=
  match call_op c with
  | Rf69Available => true
  | _ => false
  end.

(** [P] holds of the history each time [available] is asked in [h];
    [before] are the calls made before [h]. *)
Fixpoint at_polls (P : list call -> bool) (before h : list call) : bool :=
  match h with
  | [] => true
  | c :: h' =>
      (negb (is_poll c) || P before) && at_polls P (before ++ [c]) h'
  end.

Definition count_where (f : call -> bool) (h : list call) : nat :=
  List.length (filter f h).

(** [recv] has taken a frame. *)
Definition frame_accepted (c : call) : bool :=
  let (o, a) := c in
  match o return ret_type o -> bool with
  | Rf69Recv _ => fun got => match got with Some _ => true | None => false end
  | _ => fun _ => false
  end a.

(** [recv] has refused a frame. *)
Definition frame_rejected (c : call) : bool :=
  let (o, a) := c in
  match o return ret_type o -> bool with
  | Rf69Recv _ => fun got => match got with Some _ => false | None => true end
  | _ => fun _ => false
  end a.

(** The error indicator [BI_LEDB] is switched on. *)
Definition error_pulse (c : call) : bool :=
  match call_op c with
  | DigitalWrite p HIGH => board_pin_eqb p BI_LEDB
  | _ => false
  end.

Definition same_numbers (a b : list Z) : bool :=
  if list_eq_dec Z.eq_dec a b then true else false.

(** The books are in order: the numbers on the serial port and the numbers
    on the display are the signal strengths read, one for each frame
    taken. *)
Definition logged (h : list call) : bool :=
  same_numbers (serial_lines h) (rssi_reads h) &&
  same_numbers (displayed_values h) (rssi_reads h) &&
  (List.length (rssi_reads h) =? count_where frame_accepted h)%nat.

(** One pulse of the error indicator for each frame refused. *)
Definition pulsed (h : list call) : bool :=
  (count_where error_pulse h =? count_where frame_rejected h)%nat.

(** * Properties of the runner *)

Section Runner.

Context {R : Type}.
Variable env : oracle.

Lemma exec_unfold (fuel : nat) (h : list call) (t : itree hwE R) :
  exec env fuel h t =
  match observe t with
  | RetF r => (h, Some (r, fuel))
  | TauF t' =>
      match fuel with
      | O => (h, None)
      | S n => exec env n h t'
      end
  | VisF e k =>
      match fuel with
      | O => (h, None)
      | S n =>
          match e in hwE X return (X -> itree hwE R) -> _ with
          | Do c => fun k' =>
              let x := env h c in exec env n (h ++ [Call c x]) (k' x)
          end k
      end
  end.
Proof. destruct fuel; reflexivity. Qed.

Lemma exec_observe (fuel : nat) (h : list call) (t u : itree hwE R) :
  observe t = observe u -> exec env fuel h t = exec env fuel h u.
Proof. intros E. rewrite (exec_unfold _ _ t), (exec_unfold _ _ u), E. reflexivity. Qed.

Lemma exec_ret (fuel : nat) (h : list call) (r : R) :
  exec env fuel h (Ret r) = (h, Some (r, fuel)).
Proof. rewrite exec_unfold. reflexivity. Qed.

Lemma exec_tau (fuel : nat) (h : list call) (t : itree hwE R) :
  exec env (S fuel) h (Tau t) = exec env fuel h t.
Proof. reflexivity. Qed.

Lemma exec_spin (fuel : nat) (h : list call) :
  exec env fuel h (ITree.spin : itree hwE R) = (h, None).
Proof.
  induction fuel as [|n IH]; [reflexivity|].
  rewrite exec_unfold. cbn. exact IH.
Qed.

End Runner.

Section RunnerBind.

Context {A B : Type}.
Variable env : oracle.

Lemma exec_bind (fuel : nat) (h : list call) (t : itree hwE A)
    (k : A -> itree hwE B) :
  exec env fuel h (ITree.bind t k) =
  match exec env fuel h t with
  | (h', Some (a, rest)) => exec env rest h' (k a)
  | (h', None) => (h', None)
  end.
Proof.
  revert h t. induction fuel as [|n IH]; intros h t.
  - rewrite (exec_unfold _ _ _ (ITree.bind t k)), observe_bind, (exec_unfold _ _ _ t).
    destruct (observe t) as [r|t'|X e k']; cbn.
    + reflexivity.
    + reflexivity.
    + reflexivity.
  - rewrite (exec_unfold _ _ _ (ITree.bind t k)), observe_bind, (exec_unfold _ _ _ t).
    destruct (observe t) as [r|t'|X e k']; cbn.
    + reflexivity.
    + apply IH.
    + destruct e as [c]. cbn. apply IH.
Qed.

End RunnerBind.

Section RunnerFacts.

Variable env : oracle.

Lemma exec_call (fuel : nat) (h : list call) (c : op) :
  exec env (S fuel) h (call_ c) =
  (h ++ [Call c (env h c)], Some (env h c, fuel)).
Proof. rewrite exec_unfold. cbn. apply exec_ret. Qed.

Lemma exec_bind_call {B : Type} (fuel : nat) (h : list call) (c : op)
    (k : ret_type c -> itree hwE B) :
  exec env (S fuel) h (ITree.bind (call_ c) k) =
  exec env fuel (h ++ [Call c (env h c)]) (k (env h c)).
Proof. rewrite exec_bind, exec_call. reflexivity. Qed.

Lemma exec_bind_ret {A B : Type} (fuel : nat) (h : list call) (a : A)
    (k : A -> itree hwE B) :
  exec env fuel h (ITree.bind (Ret a) k) = exec env fuel h (k a).
Proof. rewrite exec_bind, exec_ret. reflexivity. Qed.

Lemma exec_bind_spin {A B : Type} (fuel : nat) (h : list call)
    (k : A -> itree hwE B) :
  exec env fuel h (ITree.bind ITree.spin k) = (h, None).
Proof. rewrite exec_bind, exec_spin. reflexivity. Qed.

(** The fuel left is part of the fuel given. *)
Lemma exec_rest_le {R : Type} (fuel : nat) :
  forall (h : list call) (t : itree hwE R) h' r rest,
    exec env fuel h t = (h', Some (r, rest)) -> (rest <= fuel)%nat.
Proof.
  induction fuel as [|n IH]; intros h t h' r rest; rewrite exec_unfold;
    destruct (observe t) as [r0|t'|X e k]; intros E;
    try discriminate; try (injection E as _ _ <-; lia).
  - apply IH in E. lia.
  - destruct e as [c]. apply IH in E. lia.
Qed.

(** The calls already made stay in front. *)
Lemma exec_extends {R : Type} (fuel : nat) :
  forall (h : list call) (t : itree hwE R),
    exists tl, fst (exec env fuel h t) = h ++ tl.
Proof.
  induction fuel as [|n IH]; intros h t; rewrite exec_unfold;
    destruct (observe t) as [r0|t'|X e k]; cbn;
    try (exists []; rewrite app_nil_r; reflexivity).
  - apply IH.
  - destruct e as [c]. cbn.
    destruct (IH (h ++ [Call c (env h c)]) (k (env h c))) as [tl E].
    exists (Call c (env h c) :: tl). rewrite E, <- app_assoc. reflexivity.
Qed.

(** More fuel changes nothing once the program has returned. *)
Lemma exec_more {R : Type} (fuel : nat) :
  forall (h : list call) (t : itree hwE R) h' r rest (d : nat),
    exec env fuel h t = (h', Some (r, rest)) ->
    exec env (fuel + d) h t = (h', Some (r, (rest + d)%nat)).
Proof.
  induction fuel as [|n IH]; intros h t h' r rest d;
    rewrite (exec_unfold _ _ h t), (exec_unfold _ (_ + d) h t);
    destruct (observe t) as [r0|t'|X e k]; intros E;
    try discriminate; try (injection E as <- <- <-; reflexivity).
  - cbn. apply IH. exact E.
  - destruct e as [c]. cbn. apply IH. exact E.
Qed.

(** More fuel only adds calls. *)
Lemma exec_mono {R : Type} (fuel : nat) :
  forall (h : list call) (t : itree hwE R) (d : nat),
    exists tl,
      fst (exec env (fuel + d) h t) = fst (exec env fuel h t) ++ tl.
Proof.
  induction fuel as [|n IH]; intros h t d.
  - rewrite (exec_unfold _ O h t).
    destruct (exec_extends (0 + d) h t) as [tl E].
    exists tl. rewrite E. destruct (observe t); reflexivity.
  - rewrite (exec_unfold _ (S n) h t), (exec_unfold _ (S n + d) h t).
    destruct (observe t) as [r0|t'|X e k]; cbn.
    + exists []. rewrite app_nil_r. reflexivity.
    + apply IH.
    + destruct e as [c]. cbn. apply IH.
Qed.

(** A program that has not returned with more fuel has not returned
    with less. *)
Lemma exec_diverges_less {R : Type} (fuel d : nat) (h : list call)
    (t : itree hwE R) :
  snd (exec env (fuel + d) h t) = None -> snd (exec env fuel h t) = None.
Proof.
  intros E. destruct (exec env fuel h t) as [h' [[r rest]|]] eqn:F;
    [|reflexivity].
  rewrite (exec_more _ _ _ _ _ _ d F) in E. discriminate.
Qed.

(** One turn of [for(;;) { body }]. *)
Lemma exec_forever {R S : Type} (fuel : nat) (h : list call)
    (body : itree hwE R) :
  exec env fuel h (ITree.forever body : itree hwE S) =
  match exec env fuel h body with
  | (h', Some (_, S rest)) => exec env rest h' (ITree.forever body)
  | (h', _) => (h', None)
  end.
Proof.
  rewrite (exec_observe _ _ _ _ _
             (observing_observe (unfold_forever_ body))).
  rewrite exec_bind.
  destruct (exec env fuel h body) as [h' [[r [|rest]]|]]; reflexivity.
Qed.

(** A property of the calls that every run of the body keeps is kept by
    the loop. *)
Lemma exec_forever_invariant {R S : Type} (P : list call -> Prop)
    (body : itree hwE R) :
  (forall n h, P h -> P (fst (exec env n h body))) ->
  forall fuel h, P h ->
    P (fst (exec env fuel h (ITree.forever body : itree hwE S))).
Proof.
  intros Hbody fuel.
  induction fuel as [fuel IH] using (well_founded_induction lt_wf).
  intros h Hh. rewrite exec_forever.
  specialize (Hbody fuel h Hh).
  destruct (exec env fuel h body) as [h' [[r [|rest]]|]] eqn:E;
    cbn in *; try exact Hbody.
  apply IH; [|exact Hbody].
  apply exec_rest_le in E. lia.
Qed.

(** A loop never returns. *)
Lemma exec_forever_diverges {R S : Type} (body : itree hwE R) :
  forall fuel h,
    snd (exec env fuel h (ITree.forever body : itree hwE S)) = None.
Proof.
  intros fuel.
  induction fuel as [fuel IH] using (well_founded_induction lt_wf).
  intros h. rewrite exec_forever.
  destruct (exec env fuel h body) as [h' [[r [|rest]]|]] eqn:E;
    try reflexivity.
  apply IH. apply exec_rest_le in E. lia.
Qed.

End RunnerFacts.

(** * [setup] *)

Ltac open_calls :=
  unfold display.begin, display.clearDisplay, display.display,
    display.setCursor, display.setTextSize, display.setTextColor,
    display.print, display.print_int, display.println, display.fillRect,
    display.drawRect, Serial.begin, Serial.println, rf69.init,
    rf69.setFrequency, rf69.setTxPower, rf69.setModemConfig,
    rf69.setEncryptionKey, rf69.available, rf69.recv, rf69.lastRssi,
    rf69.send, rf69.waitPacketSent, pinMode, digitalWrite, digitalRead,
    analogWrite, delay.

Ltac run_call :=
  lazymatch goal with
  | |- exec ?e (S ?n) ?h (@ITree.bind _ _ _ (call_ ?c) ?k) = _ =>
      refine (eq_trans (exec_bind_call e n h c k) _);
      let T := eval cbn in (ret_type c) in
      lazymatch T with
      | unit => destruct (e h c)
      | _ => idtac
      end;
      cbn [app]
  end.

Ltac last_call :=
  lazymatch goal with
  | |- exec ?e (S ?n) ?h (call_ ?c) = _ =>
      refine (eq_trans (exec_call e n h c) _);
      let T := eval cbn in (ret_type c) in
      lazymatch T with
      | unit => destruct (e h c)
      | _ => idtac
      end;
      cbn [app]
  end.

Section Setup.

Variable env : oracle.

Lemma setup_display_failed :
  env [] (DisplayBegin SSD1306_SWITCHCAPVCC 0x3C) = false ->
  forall fuel,
    exec env (S fuel) [] setup =
    ([Call (DisplayBegin SSD1306_SWITCHCAPVCC 0x3C) false], None).
Proof.
  intros Hbegin fuel. unfold setup. open_calls.
  run_call. rewrite Hbegin. cbn [negb when].
  apply exec_bind_spin.
Qed.

Lemma exec_flash_red (fuel : nat) (h : list call) :
  exec env (4 + fuel) h flash_red = (h ++ flash_calls, Some (tt, fuel)).
Proof.
  unfold flash_red. open_calls. cbn [Nat.add].
  do 3 run_call. last_call. rewrite <- !app_assoc. reflexivity.
Qed.

Lemma exec_flash_forever {T : Type} (k : nat) :
  forall (fuel : nat) (h : list call),
    exec env (5 * k + fuel) h (ITree.forever flash_red : itree hwE T) =
    exec env fuel (h ++ flashes k) (ITree.forever flash_red).
Proof.
  induction k as [|k IH]; intros fuel h.
  - cbn [Nat.mul Nat.add flashes]. rewrite app_nil_r. reflexivity.
  - replace (5 * S k + fuel)%nat with (4 + S (5 * k + fuel))%nat by lia.
    rewrite exec_forever, exec_flash_red, IH.
    cbn [flashes]. rewrite app_assoc. reflexivity.
Qed.

Lemma exec_flash_forever_exact {T : Type} (k : nat) (h : list call) :
  exec env (5 * k) h (ITree.forever flash_red : itree hwE T) =
  (h ++ flashes k, None).
Proof.
  replace (5 * k)%nat with (5 * k + 0)%nat by lia.
  rewrite exec_flash_forever. reflexivity.
Qed.

Lemma exec_lockout (k : nat) (h : list call) :
  exec env (6 + 5 * k) h lockout = (h ++ lockout_calls ++ flashes k, None).
Proof.
  unfold lockout. open_calls. cbn [Nat.add].
  do 6 run_call. rewrite exec_flash_forever_exact, <- !app_assoc.
  reflexivity.
Qed.

Lemma setup_lockout :
  env [] (DisplayBegin SSD1306_SWITCHCAPVCC 0x3C) = true ->
  env boot_calls (DigitalRead PW_BUTA) = LOW ->
  forall k, exec env (21 + 5 * k) [] setup = (locked_out k, None).
Proof.
  intros Hbegin Hbuta k. unfold setup. open_calls. cbn [Nat.add].
  run_call. rewrite Hbegin. cbn [negb when]. rewrite exec_bind_ret.
  do 13 run_call. run_call. fold boot_calls. rewrite Hbuta.
  cbn [level_eqb when]. rewrite exec_bind.
  change (S (S (S (S (S (S (5 * k)))))))%nat with (6 + 5 * k)%nat.
  rewrite exec_lockout. reflexivity.
Qed.

Lemma setup_started :
  env [] (DisplayBegin SSD1306_SWITCHCAPVCC 0x3C) = true ->
  env boot_calls (DigitalRead PW_BUTA) = HIGH ->
  forall fuel, exists h,
    exec env (24 + fuel) [] setup =
    (h, Some (tt, if env pre_radio_calls Rf69Init
                  then fuel else S fuel)) /\
    List.map call_op h =
    List.map call_op pre_radio_calls ++
    Rf69Init ::
    (if env pre_radio_calls Rf69Init
     then [AnalogWrite GRN_LED LED_LOW] else []) ++
    radio_config_ops.
Proof.
  intros Hbegin Hbuta fuel.
  assert (Hpre : exec env (24 + fuel) [] setup =
                 exec env (6 + fuel) pre_radio_calls
                   (started <- call_ Rf69Init;;
                    when started (call_ (AnalogWrite GRN_LED LED_LOW));;
                    call_ (Rf69SetFrequency RF69_FREQ);;
                    call_ (Rf69SetTxPower (-2) true);;
                    call_ (Rf69SetModemConfig GFSK_Rb250Fd250);;
                    call_ (Rf69SetEncryptionKey key))).
  { unfold setup. open_calls. cbn [Nat.add].
    run_call. rewrite Hbegin. cbn [negb when]. rewrite exec_bind_ret.
    do 13 run_call. run_call. fold boot_calls. rewrite Hbuta.
    cbn [level_eqb when]. rewrite exec_bind_ret.
    do 3 run_call. reflexivity. }
  rewrite Hpre. cbn [Nat.add].
  destruct (env pre_radio_calls Rf69Init) eqn:Hinit; eexists; split.
  - run_call. rewrite Hinit. cbn [when].
    do 4 run_call. last_call. reflexivity.
  - reflexivity.
  - run_call. rewrite Hinit. cbn [when]. rewrite exec_bind_ret.
    do 3 run_call. last_call. reflexivity.
  - reflexivity.
Qed.

End Setup.

(** * [loop_receiver] *)

Section Service.

Variable env : oracle.

Lemma exec_display_rssi (rssi_val : Z) (fuel : nat) (h : list call) :
  exec env (10 + fuel) h (display_rssi rssi_val) =
  (h ++ display_rssi_calls rssi_val, Some (tt, fuel)).
Proof.
  unfold display_rssi. open_calls. cbn [Nat.add].
  do 9 run_call. last_call. rewrite <- !app_assoc. reflexivity.
Qed.

Lemma loop_receiver_idle (h : list call) :
  env h Rf69Available = false ->
  forall fuel,
    exec env (1 + fuel) h loop_receiver =
    (h ++ [Call Rf69Available false], Some (tt, fuel)).
Proof.
  intros Havail fuel. unfold loop_receiver. open_calls. cbn [Nat.add].
  run_call. rewrite Havail. cbn [when]. apply exec_ret.
Qed.

Lemma loop_receiver_good_frame (h : list call) (payload : list byte) :
  env h Rf69Available = true ->
  env (h ++ [Call Rf69Available true]) (Rf69Recv RH_RF69_MAX_MESSAGE_LEN)
    = Some payload ->
  forall fuel,
    exec env (17 + fuel) h loop_receiver =
    (h ++ good_frame_calls payload
            (env (h ++ [ Call Rf69Available true;
                         Call (Rf69Recv RH_RF69_MAX_MESSAGE_LEN)
                           (Some payload);
                         Call (AnalogWrite GRN_LED LED_HIGH) tt ])
                 Rf69LastRssi),
     Some (tt, fuel)).
Proof.
  intros Havail Hrecv fuel. unfold loop_receiver. open_calls.
  cbn [Nat.add].
  run_call. rewrite Havail. cbn [when].
  run_call. rewrite Hrecv.
  do 3 run_call. rewrite <- !app_assoc. cbn [app].
  rewrite exec_bind.
  change (S (S (S (S (S (S (S (S (S (S (S (S fuel))))))))))))
    with (10 + S (S fuel))%nat.
  rewrite exec_display_rssi. open_calls.
  run_call. last_call. unfold good_frame_calls.
  rewrite <- !app_assoc. reflexivity.
Qed.

Lemma loop_receiver_bad_frame (h : list call) :
  env h Rf69Available = true ->
  env (h ++ [Call Rf69Available true]) (Rf69Recv RH_RF69_MAX_MESSAGE_LEN)
    = None ->
  forall fuel,
    exec env (5 + fuel) h loop_receiver =
    (h ++ bad_frame_calls, Some (tt, fuel)).
Proof.
  intros Havail Hrecv fuel. unfold loop_receiver. open_calls.
  cbn [Nat.add].
  run_call. rewrite Havail. cbn [when].
  run_call. rewrite Hrecv.
  do 2 run_call. last_call. rewrite <- !app_assoc. reflexivity.
Qed.

End Service.

(** * Histories *)

Lemma ops_where_eq (f : op -> bool) (h : list call) :
  ops_where f h = filter f (List.map call_op h).
Proof. reflexivity. Qed.

Lemma none_where_app (f : op -> bool) (a b : list call) :
  none_where f (a ++ b) = none_where f a && none_where f b.
Proof. unfold none_where. apply forallb_app. Qed.

Lemma none_where_front (f : op -> bool) (a b : list call) :
  none_where f (a ++ b) = true -> none_where f a = true.
Proof. rewrite none_where_app. intros H. apply andb_prop in H. tauto. Qed.

Lemma ops_where_app (f : op -> bool) (a b : list call) :
  ops_where f (a ++ b) = ops_where f a ++ ops_where f b.
Proof. unfold ops_where. rewrite map_app, filter_app. reflexivity. Qed.

Lemma calls_since_app (h l : list call) : calls_since h (h ++ l) = l.
Proof.
  unfold calls_since. rewrite skipn_app, skipn_all, Nat.sub_diag.
  reflexivity.
Qed.

Lemma none_where_flashes (k : nat) : none_where is_radio_op (flashes k) = true.
Proof.
  induction k as [|k IH]; [reflexivity|].
  cbn [flashes]. rewrite none_where_app, IH. reflexivity.
Qed.

Lemma none_where_locked_out (k : nat) :
  none_where is_radio_op (locked_out k) = true.
Proof.
  unfold locked_out. rewrite !none_where_app, none_where_flashes.
  reflexivity.
Qed.

(** With less fuel the calls are the first of those made with more. *)
Lemma exec_calls_below {R : Type} (env : oracle) (fuel big : nat)
    (h : list call) (t : itree hwE R) :
  (fuel <= big)%nat ->
  exists done todo,
    fst (exec env fuel h t) = h ++ done /\
    fst (exec env big h t) = h ++ done ++ todo.
Proof.
  intros Hle.
  destruct (exec_extends env fuel h t) as [done Hd].
  destruct (exec_mono env fuel h t (big - fuel)) as [todo Ht].
  replace (fuel + (big - fuel))%nat with big in Ht by lia.
  exists done, todo. split; [exact Hd|].
  rewrite Ht, Hd, app_assoc. reflexivity.
Qed.

Lemma trace_run {R : Type} (env : oracle) (fuel : nat) (t : itree hwE R) :
  trace env fuel t = List.map call_op (fst (run env fuel [] t)).
Proof. reflexivity. Qed.

Lemma run_exec {R : Type} (env : oracle) (fuel : nat) (h : list call)
    (t : itree hwE R) :
  run env fuel h t =
  (fst (exec env fuel h t), option_map fst (snd (exec env fuel h t))).
Proof. unfold run. destruct (exec env fuel h t). reflexivity. Qed.

(** A turn that returns with fuel to spare hands over to the next turn. *)
Lemma run_forever_turn {R T : Type} (env : oracle) (fuel rest : nat) (h h' : list call)
    (body : itree hwE R) (r : R) :
  exec env fuel h body = (h', Some (r, S rest)) ->
  run env fuel h (ITree.forever body : itree hwE T) =
  run env rest h' (ITree.forever body).
Proof.
  intros Hbody. rewrite !run_exec, exec_forever, Hbody. reflexivity.
Qed.

(** A [setup] that does not return keeps the service loop from starting. *)
Lemma sketch_stuck_in_setup (env : oracle) (fuel : nat) :
  snd (exec env fuel [] setup) = None ->
  exec env fuel [] sketch = (fst (exec env fuel [] setup), None).
Proof.
  intros Hnone. unfold sketch. rewrite exec_bind.
  destruct (exec env fuel [] setup) as [h' [[r rest]|]];
    [discriminate|reflexivity].
Qed.

(** * The lock-out *)

Section Lockout.

Variable env : oracle.
Hypothesis display_started :
  env [] (DisplayBegin SSD1306_SWITCHCAPVCC 0x3C) = true.
Hypothesis button_held : env boot_calls (DigitalRead PW_BUTA) = LOW.

Lemma setup_lockout_any_fuel (fuel : nat) :
  exists done todo,
    exec env fuel [] setup = (done, None) /\
    done ++ todo = locked_out fuel.
Proof.
  pose proof (setup_lockout env display_started button_held fuel) as Hbig.
  destruct (exec_calls_below env fuel (21 + 5 * fuel) [] setup)
    as (done & todo & Hd & Hb); [lia|].
  rewrite Hbig in Hb. cbn [fst app] in Hb, Hd.
  exists done, todo. split; [|symmetry; exact Hb].
  pose proof (exec_diverges_less env fuel (21 + 4 * fuel) [] setup) as Hn.
  replace (fuel + (21 + 4 * fuel))%nat with (21 + 5 * fuel)%nat in Hn
    by lia.
  rewrite Hbig in Hn. specialize (Hn eq_refl).
  destruct (exec env fuel [] setup) as [h' r]. cbn [fst snd] in Hd, Hn.
subst. reflexivity.
Qed.

End Lockout.

(** C1: when the display has started and the button [PW_BUTA] reads [LOW]
    at the interlock check, [setup] writes "Radio DISABLED" to the display
    and then toggles the red LED for ever, 250 ms on and 250 ms off: with
    fuel for [k] turns of the loop the calls are exactly the boot calls, the
    button read, the message and [k] flashes, and [setup] has not returned.
    Whatever the fuel, [setup] has not returned, the calls made are the
    first calls of that endless sequence, none of them is a call on the
    radio driver, and the sketch as a whole has done what [setup] has: the
    service loop never starts. *)
Theorem held_button_locks_radio_out (env : oracle) :
  env [] (DisplayBegin SSD1306_SWITCHCAPVCC 0x3C) = true ->
  env boot_calls (DigitalRead PW_BUTA) = LOW ->
  (forall k : nat, run env (21 + 5 * k) [] setup = (locked_out k, None)) /\
  (forall fuel : nat,
      snd (run env fuel [] setup) = None /\
      (exists todo, fst (run env fuel [] setup) ++ todo = locked_out fuel) /\
      none_where is_radio_op (fst (run env fuel [] setup)) = true /\
      run env fuel [] sketch = run env fuel [] setup).
Proof.
  intros Hbegin Hbuta. split.
  - intros k. rewrite run_exec, (setup_lockout env Hbegin Hbuta k).
    reflexivity.
  - intros fuel.
    destruct (setup_lockout_any_fuel env Hbegin Hbuta fuel)
      as (done & todo & Hexec & Hall).
    assert (Hs : exec env fuel [] sketch = (done, None)).
    { rewrite sketch_stuck_in_setup; rewrite Hexec; reflexivity. }
    rewrite !run_exec, Hexec, Hs. cbn [fst snd option_map].
    repeat split.
    + exists todo. exact Hall.
    + apply (none_where_front _ done todo). rewrite Hall.
      apply none_where_locked_out.
Qed.

(** C1 on the test bench: display fine, button held, three flashes. *)
Lemma held_button_locks_radio_out_witness :
  let env := bench true LOW true true None 0 in
  env [] (DisplayBegin SSD1306_SWITCHCAPVCC 0x3C) = true /\
  env boot_calls (DigitalRead PW_BUTA) = LOW /\
  run env (21 + 5 * 3) [] setup = (locked_out 3, None) /\
  none_where is_radio_op (fst (run env 1000 [] setup)) = true.
Proof.
  cbv zeta.
  pose proof (held_button_locks_radio_out (bench true LOW true true None 0)
                eq_refl eq_refl) as [Hk Hall].
  split; [reflexivity|]. split; [reflexivity|]. split.
  - exact (Hk 3%nat).
  - exact (proj1 (proj2 (proj2 (Hall 1000%nat)))).
Defined.

(** C10: when [display.begin] returns [false], [setup] spins in
    [for (;;);] at once: whatever the fuel, the only call ever made is
    [display.begin] itself, so no pin is configured or driven, the button is
    not read, the radio is not configured and the serial port is not opened,
    and neither [setup] nor the sketch returns. *)
Theorem display_failure_stops_the_sketch (env : oracle) :
  env [] (DisplayBegin SSD1306_SWITCHCAPVCC 0x3C) = false ->
  forall fuel : nat,
    run env (S fuel) [] setup =
      ([Call (DisplayBegin SSD1306_SWITCHCAPVCC 0x3C) false], None) /\
    run env (S fuel) [] sketch =
      ([Call (DisplayBegin SSD1306_SWITCHCAPVCC 0x3C) false], None) /\
    trace env (S fuel) sketch = [DisplayBegin SSD1306_SWITCHCAPVCC 0x3C].
Proof.
  intros Hbegin fuel.
  pose proof (setup_display_failed env Hbegin fuel) as Hsetup.
  assert (Hs : exec env (S fuel) [] sketch =
               ([Call (DisplayBegin SSD1306_SWITCHCAPVCC 0x3C) false], None)).
  { rewrite sketch_stuck_in_setup; rewrite Hsetup; reflexivity. }
  rewrite trace_run, !run_exec, Hsetup, Hs. repeat split.
Qed.

(** C10 on the test bench: a display that does not start. *)
Lemma display_failure_stops_the_sketch_witness :
  let env := bench false HIGH true true None 0 in
  env [] (DisplayBegin SSD1306_SWITCHCAPVCC 0x3C) = false /\
  trace env 500 sketch = [DisplayBegin SSD1306_SWITCHCAPVCC 0x3C].
Proof.
  cbv zeta. split; [reflexivity|].
  exact (proj2 (proj2 (display_failure_stops_the_sketch
                         (bench false HIGH true true None 0) eq_refl 499%nat))).
Defined.


(** * A start-up with the button released *)

Lemma setup_started_trace (env : oracle) :
  env [] (DisplayBegin SSD1306_SWITCHCAPVCC 0x3C) = true ->
  env boot_calls (DigitalRead PW_BUTA) = HIGH ->
  forall fuel : nat,
    snd (run env (24 + fuel) [] setup) = Some tt /\
    trace env (24 + fuel) setup =
      List.map call_op pre_radio_calls ++
      Rf69Init ::
      (if env pre_radio_calls Rf69Init
       then [AnalogWrite GRN_LED LED_LOW] else []) ++
      radio_config_ops.
Proof.
  intros Hbegin Hbuta fuel.
  destruct (setup_started env Hbegin Hbuta fuel) as (h & Hexec & Hops).
  rewrite trace_run, run_exec, Hexec. cbn [fst snd option_map].
  split; [reflexivity|exact Hops].
Qed.

(** C3, as the code has it: when the display has started and the button is
    not held, [setup] returns, and the stages it went through are, in this
    order: the display ([display.begin]), the pins ([pinMode]), the interlock
    (the button read), the serial port ([Serial.begin]) and last the radio
    ([rf69.init] and its configuration). *)
Theorem startup_stage_order (env : oracle) :
  env [] (DisplayBegin SSD1306_SWITCHCAPVCC 0x3C) = true ->
  env boot_calls (DigitalRead PW_BUTA) = HIGH ->
  forall fuel : nat,
    snd (run env (24 + fuel) [] setup) = Some tt /\
    stage_sequence (trace env (24 + fuel) setup) =
      [InitDisplay; ConfigurePins; Interlock; InitSerial; InitRadio].
Proof.
  intros Hbegin Hbuta fuel.
  destruct (setup_started_trace env Hbegin Hbuta fuel) as [Hret Htrace].
  split; [exact Hret|].
  rewrite Htrace.
  destruct (env pre_radio_calls Rf69Init); reflexivity.
Qed.

(** C3 on the test bench: everything starts, the button is released. *)
Lemma startup_stage_order_witness :
  let env := bench true HIGH true false None 0 in
  env [] (DisplayBegin SSD1306_SWITCHCAPVCC 0x3C) = true /\
  env boot_calls (DigitalRead PW_BUTA) = HIGH /\
  stage_sequence (trace env (24 + 6) setup) =
    [InitDisplay; ConfigurePins; Interlock; InitSerial; InitRadio].
Proof.
  cbv zeta. split; [reflexivity|]. split; [reflexivity|].
  exact (proj2 (startup_stage_order (bench true HIGH true false None 0)
                  eq_refl eq_refl 6%nat)).
Defined.

(** C3 as the specification words it fails: on a board where everything
    starts and the button is released, [setup] returns and its stages are
    not pins, interlock, display, radio, serial. *)
Lemma claimed_stage_order_fails :
  let env := bench true HIGH true false None 0 in
  snd (run env 30 [] setup) = Some tt /\
  stage_sequence (trace env 30 setup) <> claimed_stages.
Proof.
  cbv zeta. split; [reflexivity|].
  intros H. vm_compute in H. discriminate H.
Qed.

(** C5: when the display has started and the button is not held, the calls
    [setup] makes on the radio driver are [init], then [setFrequency] with
    868.00 MHz, then [setTxPower], then [setModemConfig] with
    [GFSK_Rb250Fd250], then [setEncryptionKey] with the sketch's key of 16
    bytes, and no other. *)
Theorem radio_configuration_order (env : oracle) :
  env [] (DisplayBegin SSD1306_SWITCHCAPVCC 0x3C) = true ->
  env boot_calls (DigitalRead PW_BUTA) = HIGH ->
  forall fuel : nat,
    snd (run env (24 + fuel) [] setup) = Some tt /\
    ops_where is_radio_op (fst (run env (24 + fuel) [] setup)) =
      [ Rf69Init;
        Rf69SetFrequency RF69_FREQ;
        Rf69SetTxPower (-2) true;
        Rf69SetModemConfig GFSK_Rb250Fd250;
        Rf69SetEncryptionKey key ] /\
    (RF69_FREQ == 868 # 1)%Q /\
    List.length key = 16%nat.
Proof.
  intros Hbegin Hbuta fuel.
  destruct (setup_started_trace env Hbegin Hbuta fuel) as [Hret Htrace].
  split; [exact Hret|]. split; [|split; reflexivity].
  rewrite trace_run in Htrace. rewrite ops_where_eq, Htrace.
  destruct (env pre_radio_calls Rf69Init); reflexivity.
Qed.

(** C5 on the test bench. *)
Lemma radio_configuration_order_witness :
  let env := bench true HIGH true false None 0 in
  env [] (DisplayBegin SSD1306_SWITCHCAPVCC 0x3C) = true /\
  env boot_calls (DigitalRead PW_BUTA) = HIGH /\
  ops_where is_radio_op (fst (run env (24 + 0) [] setup)) =
    [ Rf69Init;
      Rf69SetFrequency RF69_FREQ;
      Rf69SetTxPower (-2) true;
      Rf69SetModemConfig GFSK_Rb250Fd250;
      Rf69SetEncryptionKey key ].
Proof.
  cbv zeta. split; [reflexivity|]. split; [reflexivity|].
  exact (proj1 (proj2 (radio_configuration_order
                         (bench true HIGH true false None 0)
                         eq_refl eq_refl 0%nat))).
Defined.

(** C9: when [rf69.init] returns [false], [setup] neither stops nor tries
    again nor reports anything: it returns, and after the one [init] call it
    makes exactly the four configuration calls [setFrequency],
    [setTxPower], [setModemConfig] and [setEncryptionKey].  Against a board
    whose radio starts, the calls differ in one place only: the
    [analogWrite] that lights the green LED after [init] is absent. *)
Theorem radio_init_failure_is_silent (failing working : oracle) :
  failing [] (DisplayBegin SSD1306_SWITCHCAPVCC 0x3C) = true ->
  failing boot_calls (DigitalRead PW_BUTA) = HIGH ->
  failing pre_radio_calls Rf69Init = false ->
  working [] (DisplayBegin SSD1306_SWITCHCAPVCC 0x3C) = true ->
  working boot_calls (DigitalRead PW_BUTA) = HIGH ->
  working pre_radio_calls Rf69Init = true ->
  forall fuel : nat,
    snd (run failing (24 + fuel) [] setup) = Some tt /\
    snd (run working (24 + fuel) [] setup) = Some tt /\
    trace failing (24 + fuel) setup =
      List.map call_op pre_radio_calls ++
      [Rf69Init] ++
      [ Rf69SetFrequency RF69_FREQ;
        Rf69SetTxPower (-2) true;
        Rf69SetModemConfig GFSK_Rb250Fd250;
        Rf69SetEncryptionKey key ] /\
    trace working (24 + fuel) setup =
      List.map call_op pre_radio_calls ++
      [Rf69Init; AnalogWrite GRN_LED LED_LOW] ++
      [ Rf69SetFrequency RF69_FREQ;
        Rf69SetTxPower (-2) true;
        Rf69SetModemConfig GFSK_Rb250Fd250;
        Rf69SetEncryptionKey key ].
Proof.
  intros Fbegin Fbuta Finit Wbegin Wbuta Winit fuel.
  destruct (setup_started_trace failing Fbegin Fbuta fuel) as [Fret Ftrace].
  destruct (setup_started_trace working Wbegin Wbuta fuel) as [Wret Wtrace].
  rewrite Finit in Ftrace. rewrite Winit in Wtrace.
  repeat split; assumption.
Qed.

(** C9 on the test bench: a radio that does not start next to one that
    does. *)
Lemma radio_init_failure_is_silent_witness :
  let failing := bench true HIGH false false None 0 in
  let working := bench true HIGH true false None 0 in
  failing pre_radio_calls Rf69Init = false /\
  working pre_radio_calls Rf69Init = true /\
  snd (run failing (24 + 0) [] setup) = Some tt /\
  trace failing (24 + 0) setup =
    List.map call_op pre_radio_calls ++
    [Rf69Init] ++
    [ Rf69SetFrequency RF69_FREQ;
      Rf69SetTxPower (-2) true;
      Rf69SetModemConfig GFSK_Rb250Fd250;
      Rf69SetEncryptionKey key ].
Proof.
  cbv zeta.
  pose proof (radio_init_failure_is_silent
                (bench true HIGH false false None 0)
                (bench true HIGH true false None 0)
                eq_refl eq_refl eq_refl eq_refl eq_refl eq_refl 0%nat)
    as (Hret & _ & Htrace & _).
  split; [reflexivity|]. split; [reflexivity|]. split; assumption.
Defined.


(** * The service loop *)

Lemma loop_good_frame_run (env : oracle) (h : list call) (payload : list byte) :
  env h Rf69Available = true ->
  env (h ++ [Call Rf69Available true]) (Rf69Recv RH_RF69_MAX_MESSAGE_LEN)
    = Some payload ->
  forall fuel : nat, exists rssi_val : Z,
    run env (17 + fuel) h loop =
      (h ++ good_frame_calls payload rssi_val, Some tt) /\
    run env (18 + fuel) h (ITree.forever loop : itree hwE unit) =
      run env fuel (h ++ good_frame_calls payload rssi_val)
        (ITree.forever loop).
Proof.
  intros Havail Hrecv fuel. eexists. unfold loop. split.
  - rewrite run_exec,
      (loop_receiver_good_frame env h payload Havail Hrecv fuel).
    reflexivity.
  - apply (run_forever_turn env (17 + S fuel) fuel h _ loop_receiver tt).
    apply (loop_receiver_good_frame env h payload Havail Hrecv (S fuel)).
Qed.

Lemma loop_bad_frame_run (env : oracle) (h : list call) :
  env h Rf69Available = true ->
  env (h ++ [Call Rf69Available true]) (Rf69Recv RH_RF69_MAX_MESSAGE_LEN)
    = None ->
  forall fuel : nat,
    run env (5 + fuel) h loop = (h ++ bad_frame_calls, Some tt) /\
    run env (6 + fuel) h (ITree.forever loop : itree hwE unit) =
      run env fuel (h ++ bad_frame_calls) (ITree.forever loop).
Proof.
  intros Havail Hrecv fuel. unfold loop. split.
  - rewrite run_exec, (loop_receiver_bad_frame env h Havail Hrecv fuel).
    reflexivity.
  - apply (run_forever_turn env (5 + S fuel) fuel h _ loop_receiver tt).
    apply (loop_receiver_bad_frame env h Havail Hrecv (S fuel)).
Qed.

(** C2: in a turn of the service loop, after any history [h], in which a
    frame is available and [recv] accepts it, the sketch returns from the
    turn having made these calls, in this order: [available], [recv], the
    green LED to the high PWM level 60, [lastRssi], the value on the serial
    port, the display redrawn by [display_rssi] (cleared, bar filled, outline,
    cursor, text size, colour, "RSSI: ", the value, " dBm", flushed), a wait
    of 50 ms, and the green LED back to the low PWM level 10.  The endless
    service loop then goes into its next turn with these calls made. *)
Theorem good_frame_service_order (env : oracle) (h : list call)
    (payload : list byte) :
  env h Rf69Available = true ->
  env (h ++ [Call Rf69Available true]) (Rf69Recv RH_RF69_MAX_MESSAGE_LEN)
    = Some payload ->
  forall fuel : nat, exists (rssi_val : Z) (made : list call),
    run env (17 + fuel) h loop = (h ++ made, Some tt) /\
    run env (18 + fuel) h (ITree.forever loop : itree hwE unit) =
      run env fuel (h ++ made) (ITree.forever loop) /\
    In (Call Rf69LastRssi rssi_val) made /\
    List.map call_op made =
      [ Rf69Available;
        Rf69Recv RH_RF69_MAX_MESSAGE_LEN;
        AnalogWrite GRN_LED 60;
        Rf69LastRssi;
        SerialPrintln rssi_val;
        DisplayClearDisplay;
        DisplayFillRect 0 0 (int16_t (barwidth rssi_val)) 6 SSD1306_WHITE;
        DisplayDrawRect 0 0 SCREEN_WIDTH 6 SSD1306_WHITE;
        DisplaySetCursor 0 9;
        DisplaySetTextSize 1;
        DisplaySetTextColor SSD1306_WHITE;
        DisplayPrint "RSSI: ";
        DisplayPrintInt rssi_val;
        DisplayPrintln " dBm";
        DisplayDisplay;
        Delay 50;
        AnalogWrite GRN_LED 10 ].
Proof.
  intros Havail Hrecv fuel.
  destruct (loop_good_frame_run env h payload Havail Hrecv fuel)
    as (rssi_val & Hrun & Hnext).
  exists rssi_val, (good_frame_calls payload rssi_val).
  split; [exact Hrun|]. split; [exact Hnext|]. split; [|reflexivity].
  unfold good_frame_calls. cbn [app In]. tauto.
Qed.

(** C2 on the test bench: a frame of two bytes at -42 dBm. *)
Lemma good_frame_service_order_witness :
  let env := bench true HIGH true true (Some [x48; x69]) (-42) in
  env [] Rf69Available = true /\
  env ([] ++ [Call Rf69Available true]) (Rf69Recv RH_RF69_MAX_MESSAGE_LEN)
    = Some [x48; x69] /\
  exists (rssi_val : Z) (made : list call),
    run env (17 + 3) [] loop = ([] ++ made, Some tt) /\
    run env (18 + 3) [] (ITree.forever loop : itree hwE unit) =
      run env 3 ([] ++ made) (ITree.forever loop) /\
    In (Call Rf69LastRssi rssi_val) made /\
    List.map call_op made =
      [ Rf69Available;
        Rf69Recv RH_RF69_MAX_MESSAGE_LEN;
        AnalogWrite GRN_LED 60;
        Rf69LastRssi;
        SerialPrintln rssi_val;
        DisplayClearDisplay;
        DisplayFillRect 0 0 (int16_t (barwidth rssi_val)) 6 SSD1306_WHITE;
        DisplayDrawRect 0 0 SCREEN_WIDTH 6 SSD1306_WHITE;
        DisplaySetCursor 0 9;
        DisplaySetTextSize 1;
        DisplaySetTextColor SSD1306_WHITE;
        DisplayPrint "RSSI: ";
        DisplayPrintInt rssi_val;
        DisplayPrintln " dBm";
        DisplayDisplay;
        Delay 50;
        AnalogWrite GRN_LED 10 ].
Proof.
  cbv zeta. split; [reflexivity|]. split; [reflexivity|].
  exact (good_frame_service_order
           (bench true HIGH true true (Some [x48; x69]) (-42)) []
           [x48; x69] eq_refl eq_refl 3%nat).
Defined.

(** C6: in a turn of the service loop in which a frame is available and
    [recv] accepts it, [lastRssi] is read exactly once, after the [recv];
    the number printed on the serial port and the number put on the display
    between "RSSI: " and " dBm" are both the value that read returned. *)
Theorem shown_rssi_is_last_rssi (env : oracle) (h : list call)
    (payload : list byte) :
  env h Rf69Available = true ->
  env (h ++ [Call Rf69Available true]) (Rf69Recv RH_RF69_MAX_MESSAGE_LEN)
    = Some payload ->
  forall fuel : nat, exists rssi_val : Z,
    let made := calls_since h (fst (run env (17 + fuel) h loop)) in
    rssi_reads made = [rssi_val] /\
    ops_where is_recv_or_rssi made =
      [Rf69Recv RH_RF69_MAX_MESSAGE_LEN; Rf69LastRssi] /\
    serial_lines made = [rssi_val] /\
    ops_where is_print_op made =
      [DisplayPrint "RSSI: "; DisplayPrintInt rssi_val; DisplayPrintln " dBm"].
Proof.
  intros Havail Hrecv fuel.
  destruct (loop_good_frame_run env h payload Havail Hrecv fuel)
    as (rssi_val & Hrun & _).
  exists rssi_val. cbv zeta. rewrite Hrun. cbn [fst].
  rewrite calls_since_app. repeat split.
Qed.

(** C6 on the test bench: a frame at -97 dBm after an earlier bad frame. *)
Lemma shown_rssi_is_last_rssi_witness :
  let env := bench true HIGH true true (Some [x00]) (-97) in
  env bad_frame_calls Rf69Available = true /\
  env (bad_frame_calls ++ [Call Rf69Available true])
    (Rf69Recv RH_RF69_MAX_MESSAGE_LEN) = Some [x00] /\
  exists rssi_val : Z,
    let made :=
      calls_since bad_frame_calls
        (fst (run env (17 + 0) bad_frame_calls loop)) in
    rssi_reads made = [rssi_val] /\
    ops_where is_recv_or_rssi made =
      [Rf69Recv RH_RF69_MAX_MESSAGE_LEN; Rf69LastRssi] /\
    serial_lines made = [rssi_val] /\
    ops_where is_print_op made =
      [DisplayPrint "RSSI: "; DisplayPrintInt rssi_val; DisplayPrintln " dBm"].
Proof.
  cbv zeta. split; [reflexivity|]. split; [reflexivity|].
  exact (shown_rssi_is_last_rssi
           (bench true HIGH true true (Some [x00]) (-97)) bad_frame_calls
           [x00] eq_refl eq_refl 0%nat).
Defined.

(** C4: in a turn of the service loop, after any history [h], in which a
    frame is available and [recv] rejects it, the sketch returns from the
    turn, and what it did to the board is to drive [BI_LEDB] high, wait
    50 ms and drive it low, nothing else: the calls on the display, the
    calls that drive the green LED and the calls on the serial port are
    those of [h], so the display, the green LED and the serial output are
    as they were.  The endless service loop then goes into its next
    turn. *)
Theorem bad_frame_only_pulses_error_led (env : oracle) (h : list call) :
  env h Rf69Available = true ->
  env (h ++ [Call Rf69Available true]) (Rf69Recv RH_RF69_MAX_MESSAGE_LEN)
    = None ->
  forall fuel : nat,
    let after := fst (run env (5 + fuel) h loop) in
    snd (run env (5 + fuel) h loop) = Some tt /\
    List.map call_op (calls_since h after) =
      [ Rf69Available;
        Rf69Recv RH_RF69_MAX_MESSAGE_LEN;
        DigitalWrite BI_LEDB HIGH;
        Delay 50;
        DigitalWrite BI_LEDB LOW ] /\
    ops_where is_output_op (calls_since h after) =
      [DigitalWrite BI_LEDB HIGH; Delay 50; DigitalWrite BI_LEDB LOW] /\
    ops_where is_display_op after = ops_where is_display_op h /\
    ops_where (drives GRN_LED) after = ops_where (drives GRN_LED) h /\
    ops_where is_serial_op after = ops_where is_serial_op h /\
    run env (6 + fuel) h (ITree.forever loop : itree hwE unit) =
      run env fuel after (ITree.forever loop).
Proof.
  intros Havail Hrecv fuel. cbv zeta.
  destruct (loop_bad_frame_run env h Havail Hrecv fuel) as [Hrun Hnext].
  rewrite Hrun. cbn [fst snd].
  rewrite calls_since_app, !ops_where_app.
  repeat split; try apply app_nil_r. exact Hnext.
Qed.

(** C4 on the test bench: a bad frame after a good one. *)
Lemma bad_frame_only_pulses_error_led_witness :
  let env := bench true HIGH true true None 0 in
  let h := good_frame_calls [x01] (-60) in
  env h Rf69Available = true /\
  env (h ++ [Call Rf69Available true]) (Rf69Recv RH_RF69_MAX_MESSAGE_LEN)
    = None /\
  ops_where is_output_op (calls_since h (fst (run env (5 + 2) h loop))) =
    [DigitalWrite BI_LEDB HIGH; Delay 50; DigitalWrite BI_LEDB LOW] /\
  ops_where is_display_op (fst (run env (5 + 2) h loop)) =
    ops_where is_display_op h.
Proof.
  cbv zeta.
  pose proof (bad_frame_only_pulses_error_led
                (bench true HIGH true true None 0)
                (good_frame_calls [x01] (-60)) eq_refl eq_refl 2%nat)
    as (_ & _ & Hout & Hdisp & _).
  split; [reflexivity|]. split; [reflexivity|]. split; assumption.
Defined.


(** * The receiver is the loop *)

(** The sketch never returns: [setup] spins, flashes for ever, or hands
    over to the endless service loop. *)
Lemma sketch_never_returns (env : oracle) (fuel : nat) :
  snd (run env fuel [] sketch) = None.
Proof.
  rewrite run_exec. cbn [snd]. unfold sketch. rewrite exec_bind.
  destruct (exec env fuel [] setup) as [h' [[r rest]|]]; [|reflexivity].
  rewrite exec_forever_diverges. reflexivity.
Qed.

Lemma none_where_weaken (f g : op -> bool) (h : list call) :
  (forall c, g c = true -> f c = true) ->
  none_where f h = true -> none_where g h = true.
Proof.
  intros Hfg. unfold none_where. rewrite !forallb_forall.
  intros H c Hc. specialize (H c Hc).
  destruct (g (call_op c)) eqn:G; [|reflexivity].
  rewrite (Hfg _ G) in H. exact H.
Qed.

Lemma none_where_ops (f : op -> bool) (h : list call) :
  none_where f h = forallb (fun c => negb (f c)) (List.map call_op h).
Proof.
  unfold none_where. induction h as [|c h IH]; [reflexivity|].
  cbn [forallb List.map]. rewrite IH. reflexivity.
Qed.

Lemma transmit_is_radio (c : op) : is_transmit_op c = true -> is_radio_op c = true.
Proof. destruct c; cbn; congruence. Qed.

(** Whatever the fuel and the answers, a turn of [loop_receiver] makes no
    call of the transmitter. *)
Lemma loop_receiver_never_transmits (env : oracle) (fuel : nat) (h : list call) :
  exists made,
    fst (exec env fuel h loop_receiver) = h ++ made /\
    none_where is_transmit_op made = true.
Proof.
  destruct (exec_calls_below env fuel (17 + fuel) h loop_receiver)
    as (made & todo & Hmade & Hbig); [lia|].
  exists made. split; [exact Hmade|].
  apply (none_where_front _ made todo).
  destruct (env h Rf69Available) eqn:Havail.
  - destruct (env (h ++ [Call Rf69Available true])
                (Rf69Recv RH_RF69_MAX_MESSAGE_LEN)) as [payload|] eqn:Hrecv.
    + rewrite (loop_receiver_good_frame env h payload Havail Hrecv fuel)
        in Hbig.
      cbn [fst] in Hbig. apply app_inv_head in Hbig. rewrite <- Hbig.
      reflexivity.
    + pose proof (loop_receiver_bad_frame env h Havail Hrecv (12 + fuel))
        as Hbad.
      change (5 + (12 + fuel))%nat with (17 + fuel)%nat in Hbad.
      rewrite Hbad in Hbig.
      cbn [fst] in Hbig. apply app_inv_head in Hbig. rewrite <- Hbig.
      reflexivity.
  - pose proof (loop_receiver_idle env h Havail (16 + fuel)) as Hidle.
    change (1 + (16 + fuel))%nat with (17 + fuel)%nat in Hidle.
    rewrite Hidle in Hbig.
    cbn [fst] in Hbig. apply app_inv_head in Hbig. rewrite <- Hbig.
    reflexivity.
Qed.

(** Whatever the fuel and the answers, [setup] makes no call of the
    transmitter. *)
Lemma setup_never_transmits (env : oracle) (fuel : nat) :
  none_where is_transmit_op (fst (exec env fuel [] setup)) = true.
Proof.
  destruct (env [] (DisplayBegin SSD1306_SWITCHCAPVCC 0x3C)) eqn:Hbegin.
  - destruct (env boot_calls (DigitalRead PW_BUTA)) eqn:Hbuta.
    + destruct (setup_lockout_any_fuel env Hbegin Hbuta fuel)
        as (made & todo & Hexec & Hall).
      rewrite Hexec. cbn [fst].
      apply (none_where_front _ made todo). rewrite Hall.
      apply (none_where_weaken is_radio_op); [exact transmit_is_radio|].
      apply none_where_locked_out.
    + destruct (exec_calls_below env fuel (24 + fuel) [] setup)
        as (made & todo & Hmade & Hbig); [lia|].
      destruct (setup_started env Hbegin Hbuta fuel) as (h & Hexec & Hops).
      rewrite Hexec in Hbig. cbn [fst app] in Hbig, Hmade.
      rewrite Hmade. apply (none_where_front _ made todo).
      rewrite <- Hbig, none_where_ops, Hops.
      destruct (env pre_radio_calls Rf69Init); reflexivity.
  - destruct fuel as [|fuel]; [reflexivity|].
    rewrite (setup_display_failed env Hbegin fuel). reflexivity.
Qed.

(** Whatever the fuel and the answers, the sketch makes no call of the
    transmitter. *)
Lemma sketch_never_transmits (env : oracle) (fuel : nat) :
  none_where is_transmit_op (fst (exec env fuel [] sketch)) = true.
Proof.
  unfold sketch. rewrite exec_bind.
  pose proof (setup_never_transmits env fuel) as Hsetup.
  destruct (exec env fuel [] setup) as [h' [[r rest]|]];
    cbn [fst] in Hsetup; [|exact Hsetup].
  apply (exec_forever_invariant env
           (fun h => none_where is_transmit_op h = true)); [|exact Hsetup].
  intros n h Hh. unfold loop.
  destruct (loop_receiver_never_transmits env n h) as (made & Hmade & Hnone).
  rewrite Hmade, none_where_app, Hh, Hnone. reflexivity.
Qed.

(** C7: [loop] is [loop_receiver]: the two are the same program, so against
    every environment, with every fuel and after every history they make the
    same calls and return alike.  No turn of [loop] makes a call of the
    transmitter body ([send], [waitPacketSent]), and neither does the sketch
    as a whole, whatever the fuel; [loop_transmitter], were it run, would
    start with [send] of the 26 bytes of [data]. *)
Theorem loop_is_the_receiver :
  loop = loop_receiver /\
  (forall (env : oracle) (fuel : nat) (h : list call),
      run env fuel h loop = run env fuel h loop_receiver) /\
  (forall (env : oracle) (fuel : nat) (h : list call),
      none_where is_transmit_op
        (calls_since h (fst (run env fuel h loop))) = true) /\
  (forall (env : oracle) (fuel : nat),
      none_where is_transmit_op (fst (run env fuel [] sketch)) = true) /\
  (forall (env : oracle) (fuel : nat) (h : list call),
      exists sent rest,
        fst (run env (S fuel) h loop_transmitter) =
        h ++ Call (Rf69Send data 26) sent :: rest).
Proof.
  split; [reflexivity|]. split; [reflexivity|]. split; [|split].
  - intros env fuel h. unfold loop. rewrite run_exec. cbn [fst].
    destruct (loop_receiver_never_transmits env fuel h)
      as (made & Hmade & Hnone).
    rewrite Hmade, calls_since_app. exact Hnone.
  - intros env fuel. rewrite run_exec. cbn [fst].
    apply sketch_never_transmits.
  - intros env fuel h. rewrite run_exec. cbn [fst].
    unfold loop_transmitter. open_calls.
    match goal with
    | |- context [exec env (S fuel) h (@ITree.bind _ _ _ (call_ ?c) ?k)] =>
        pose proof (exec_bind_call env fuel h c k) as Hstep;
        destruct (exec_extends env fuel (h ++ [Call c (env h c)])
                    (k (env h c))) as [rest Hrest]
    end.
    exists (env h (Rf69Send data 26)), rest.
    etransitivity; [apply f_equal; exact Hstep|].
    etransitivity; [exact Hrest|].
    rewrite <- app_assoc. reflexivity.
Qed.


(** * The bar *)

Lemma wrap_long_small (z : Z) :
  - 2 ^ 31 <= z < 2 ^ 31 -> WMath.wrap_long z = z.
Proof.
  intros Hz. unfold WMath.wrap_long.
  rewrite Z.mod_small; lia.
Qed.

(** Where the scaled value fits a [long], [barwidth] is the linear map
    itself. *)
Lemma barwidth_linear (rssi_val : Z) :
  - 2 ^ 31 <= (rssi_val + 100) * SCREEN_WIDTH < 2 ^ 31 ->
  barwidth rssi_val = (rssi_val + 100) * SCREEN_WIDTH ÷ 80.
Proof.
  unfold SCREEN_WIDTH. intros Hfit.
  unfold barwidth, WMath.map, SCREEN_WIDTH.
  change (WMath.wrap_long (-20 - -100)) with 80.
  change (WMath.wrap_long (96 - 0)) with 96.
  change (80 =? 0) with false. cbv iota.
  replace (rssi_val - -100) with (rssi_val + 100) by lia.
  rewrite (wrap_long_small (rssi_val + 100)) by lia.
  rewrite (wrap_long_small ((rssi_val + 100) * 96)) by lia.
  assert (Hq : - 2 ^ 31 <= (rssi_val + 100) * 96 ÷ 80 < 2 ^ 31)
    by (Z.to_euclidean_division_equations; lia).
  rewrite (wrap_long_small _ Hq), Z.add_0_r.
  apply wrap_long_small. exact Hq.
Qed.

Lemma display_rssi_run (env : oracle) (rssi_val : Z) (fuel : nat)
    (h : list call) :
  run env (10 + fuel) h (display_rssi rssi_val) =
  (h ++ display_rssi_calls rssi_val, Some tt).
Proof. rewrite run_exec, exec_display_rssi. reflexivity. Qed.

Lemma int16_t_small (z : Z) : -32768 <= z <= 32767 -> int16_t z = z.
Proof.
  intros Hz. unfold int16_t.
  rewrite Z.mod_small; lia.
Qed.

(** The one width [display_rssi] hands to [fillRect] is [barwidth], narrowed
    to the [int16_t] of the parameter. *)
Lemma display_rssi_fill_width (env : oracle) (rssi_val : Z) (fuel : nat)
    (h : list call) :
  fill_widths
    (calls_since h (fst (run env (10 + fuel) h (display_rssi rssi_val)))) =
  [int16_t (barwidth rssi_val)].
Proof.
  rewrite display_rssi_run. cbn [fst].
  rewrite calls_since_app. reflexivity.
Qed.

(** C8, as the code has it: for every [rssi_val] whose linear-map value
    [(rssi_val + 100) * SCREEN_WIDTH / 80] (C's truncating division) fits
    the [int16_t] width parameter of [fillRect], that is for [rssi_val] from
    -27407 to 27206, the bar width of [display_rssi] is that value, with no
    clamp: above -20 it is more than [SCREEN_WIDTH], below -100 it is
    negative; [display_rssi] returns after its one [fillRect] call, which
    receives that width as it is. *)
Theorem bar_width_is_unclamped (rssi_val : Z) :
  -32768 <= (rssi_val + 100) * SCREEN_WIDTH ÷ 80 <= 32767 ->
  barwidth rssi_val = (rssi_val + 100) * SCREEN_WIDTH ÷ 80 /\
  (-20 < rssi_val -> SCREEN_WIDTH < barwidth rssi_val) /\
  (rssi_val < -100 -> barwidth rssi_val < 0) /\
  (forall (env : oracle) (fuel : nat) (h : list call),
      snd (run env (10 + fuel) h (display_rssi rssi_val)) = Some tt /\
      fill_widths
        (calls_since h
           (fst (run env (10 + fuel) h (display_rssi rssi_val)))) =
        [(rssi_val + 100) * SCREEN_WIDTH ÷ 80]) /\
  -27407 <= rssi_val <= 27206.
Proof.
  intros Hfit16.
  assert (Hrange : -27407 <= rssi_val <= 27206)
    by (unfold SCREEN_WIDTH in Hfit16;
        Z.to_euclidean_division_equations; lia).
  assert (Hfit : - 2 ^ 31 <= (rssi_val + 100) * SCREEN_WIDTH < 2 ^ 31)
    by (unfold SCREEN_WIDTH; lia).
  pose proof (barwidth_linear rssi_val Hfit) as Hbar.
  split; [exact Hbar|].
  split; [|split; [|split; [|exact Hrange]]].
  - intros Habove. rewrite Hbar. unfold SCREEN_WIDTH.
    Z.to_euclidean_division_equations; lia.
  - intros Hbelow. rewrite Hbar. unfold SCREEN_WIDTH.
    Z.to_euclidean_division_equations; lia.
  - intros env fuel h. split.
    + rewrite display_rssi_run. reflexivity.
    + rewrite display_rssi_fill_width, Hbar, (int16_t_small _ Hfit16).
      reflexivity.
Qed.

(** C8 on two signal strengths: at -19 dBm the bar is 97 pixels wide on a
    screen of 96, at -101 dBm it is -1 pixel wide, and [fillRect] receives
    97 and -1. *)
Lemma bar_width_is_unclamped_witness :
  let env := bench true HIGH true true None 0 in
  (-32768 <= (-19 + 100) * SCREEN_WIDTH ÷ 80 <= 32767 /\
   -20 < -19 /\ SCREEN_WIDTH < barwidth (-19) /\
   fill_widths
     (calls_since [] (fst (run env (10 + 0) [] (display_rssi (-19))))) =
     [(-19 + 100) * SCREEN_WIDTH ÷ 80]) /\
  (-32768 <= (-101 + 100) * SCREEN_WIDTH ÷ 80 <= 32767 /\
   -101 < -100 /\ barwidth (-101) < 0 /\
   fill_widths
     (calls_since [] (fst (run env (10 + 0) [] (display_rssi (-101))))) =
     [(-101 + 100) * SCREEN_WIDTH ÷ 80]).
Proof.
  cbv zeta.
  assert (H19 : -32768 <= (-19 + 100) * SCREEN_WIDTH ÷ 80 <= 32767)
    by (vm_compute; split; discriminate).
  assert (H101 : -32768 <= (-101 + 100) * SCREEN_WIDTH ÷ 80 <= 32767)
    by (vm_compute; split; discriminate).
  destruct (bar_width_is_unclamped (-19) H19)
    as (_ & Habove & _ & Hfill19 & _).
  destruct (bar_width_is_unclamped (-101) H101)
    as (_ & _ & Hbelow & Hfill101 & _).
  split.
  - split; [exact H19|]. split; [reflexivity|].
    split; [exact (Habove eq_refl)|].
    exact (proj2 (Hfill19 (bench true HIGH true true None 0) 0%nat [])).
  - split; [exact H101|]. split; [reflexivity|].
    split; [exact (Hbelow eq_refl)|].
    exact (proj2 (Hfill101 (bench true HIGH true true None 0) 0%nat [])).
Defined.

(** C8 as the specification words it, for every [rssi_val], fails.  At
    [rssi_val] = 27207, a value an [int16_t] holds, the linear map gives
    32768 and so does [barwidth], but [display_rssi] returns after a
    [fillRect] call that received -32768: the [int] does not fit the
    [int16_t] parameter.  At 22369522 the scaled value does not fit a
    [long], and [barwidth] itself is not the linear map. *)
Lemma bar_width_claim_fails :
  let env := bench true HIGH true true None 0 in
  (27207 + 100) * SCREEN_WIDTH ÷ 80 = 32768 /\
  barwidth 27207 = 32768 /\
  snd (run env 10 [] (display_rssi 27207)) = Some tt /\
  fill_widths (calls_since [] (fst (run env 10 [] (display_rssi 27207)))) =
    [-32768] /\
  fill_widths (calls_since [] (fst (run env 10 [] (display_rssi 27207)))) <>
    [(27207 + 100) * SCREEN_WIDTH ÷ 80] /\
  barwidth 22369522 <> (22369522 + 100) * SCREEN_WIDTH ÷ 80.
Proof.
  cbv zeta. repeat split; try (vm_compute; reflexivity);
    intros H; vm_compute in H; discriminate H.
Qed.


(** * The ways a run can go *)

Lemma setup_started_calls (env : oracle) :
  env [] (DisplayBegin SSD1306_SWITCHCAPVCC 0x3C) = true ->
  env boot_calls (DigitalRead PW_BUTA) = HIGH ->
  forall fuel : nat, exists started tuned configured,
    exec env (24 + fuel) [] setup =
    (started_calls started tuned configured,
     Some (tt, if started then fuel else S fuel)).
Proof.
  intros Hbegin Hbuta fuel.
  assert (Hpre : exec env (24 + fuel) [] setup =
                 exec env (6 + fuel) pre_radio_calls
                   (started <- call_ Rf69Init;;
                    when started (call_ (AnalogWrite GRN_LED LED_LOW));;
                    call_ (Rf69SetFrequency RF69_FREQ);;
                    call_ (Rf69SetTxPower (-2) true);;
                    call_ (Rf69SetModemConfig GFSK_Rb250Fd250);;
                    call_ (Rf69SetEncryptionKey key))).
  { unfold setup. open_calls. cbn [Nat.add].
    run_call. rewrite Hbegin. cbn [negb when]. rewrite exec_bind_ret.
    do 13 run_call. run_call. fold boot_calls. rewrite Hbuta.
    cbn [level_eqb when]. rewrite exec_bind_ret.
    do 3 run_call. reflexivity. }
  rewrite Hpre. cbn [Nat.add].
  destruct (env pre_radio_calls Rf69Init) eqn:Hinit;
    [exists true|exists false]; eexists; eexists.
  - run_call. rewrite Hinit. cbn [when].
    do 4 run_call. last_call. reflexivity.
  - run_call. rewrite Hinit. cbn [when]. rewrite exec_bind_ret.
    do 3 run_call. last_call. reflexivity.
Qed.

(** Whatever the environment and the fuel, what [setup] has done is the
    beginning of one of its three courses. *)
Lemma setup_calls_cases (env : oracle) (fuel : nat) :
  exists todo, setup_shape (fst (exec env fuel [] setup) ++ todo).
Proof.
  destruct (env [] (DisplayBegin SSD1306_SWITCHCAPVCC 0x3C)) eqn:Hbegin.
  - destruct (env boot_calls (DigitalRead PW_BUTA)) eqn:Hbuta.
    + destruct (setup_lockout_any_fuel env Hbegin Hbuta fuel)
        as (made & todo & Hexec & Hall).
      exists todo. rewrite Hexec. cbn [fst].
      right. left. exists fuel. exact Hall.
    + destruct (exec_calls_below env fuel (24 + fuel) [] setup)
        as (made & todo & Hmade & Hbig); [lia|].
      destruct (setup_started_calls env Hbegin Hbuta fuel)
        as (b & f & m & Hexec).
      rewrite Hexec in Hbig. cbn [fst app] in Hbig, Hmade.
      exists todo. rewrite Hmade, <- Hbig.
      right. right. exists b, f, m. reflexivity.
  - destruct (exec_calls_below env fuel (S fuel) [] setup)
      as (made & todo & Hmade & Hbig); [lia|].
    rewrite (setup_display_failed env Hbegin fuel) in Hbig.
    cbn [fst app] in Hbig, Hmade.
    exists todo. rewrite Hmade, <- Hbig. left. reflexivity.
Qed.

(** A [setup] that has returned has found the display started and the
    button released, and has gone the whole third course. *)
Lemma setup_returned (env : oracle) (fuel : nat) (h : list call)
    (r : unit * nat) :
  exec env fuel [] setup = (h, Some r) ->
  env [] (DisplayBegin SSD1306_SWITCHCAPVCC 0x3C) = true /\
  env boot_calls (DigitalRead PW_BUTA) = HIGH /\
  exists started tuned configured, h = started_calls started tuned configured.
Proof.
  intros Hexec. destruct r as [r rest].
  destruct (env [] (DisplayBegin SSD1306_SWITCHCAPVCC 0x3C)) eqn:Hbegin.
  - destruct (env boot_calls (DigitalRead PW_BUTA)) eqn:Hbuta.
    + destruct (setup_lockout_any_fuel env Hbegin Hbuta fuel)
        as (made & todo & Hnone & _).
      rewrite Hnone in Hexec. discriminate.
    + split; [reflexivity|]. split; [reflexivity|].
      destruct (setup_started_calls env Hbegin Hbuta fuel)
        as (b & f & m & Hbig).
      pose proof (exec_more env fuel [] setup h r rest 24 Hexec) as Hmore.
      rewrite Nat.add_comm, Hbig in Hmore.
      exists b, f, m. congruence.
  - pose proof (exec_more env fuel [] setup h r rest 1 Hexec) as Hmore.
    rewrite Nat.add_comm in Hmore. cbn [Nat.add] in Hmore.
    rewrite (setup_display_failed env Hbegin fuel) in Hmore. discriminate.
Qed.

(** With fuel for 17 steps a turn of [loop] returns, having gone one of its
    three courses. *)
Lemma turn_returns (env : oracle) (fuel : nat) (h : list call) :
  exists made rest,
    exec env (17 + fuel) h loop = (h ++ made, Some (tt, rest)) /\
    turn_shape made.
Proof.
  unfold loop.
  destruct (env h Rf69Available) eqn:Havail.
  - destruct (env (h ++ [Call Rf69Available true])
                (Rf69Recv RH_RF69_MAX_MESSAGE_LEN)) as [payload|] eqn:Hrecv.
    + eexists. eexists. split.
      * apply (loop_receiver_good_frame env h payload Havail Hrecv fuel).
      * right. right. eexists. eexists. reflexivity.
    + eexists. eexists. split.
      * apply (loop_receiver_bad_frame env h Havail Hrecv (12 + fuel)).
      * right. left. reflexivity.
  - eexists. eexists. split.
    + apply (loop_receiver_idle env h Havail (16 + fuel)).
    + left. reflexivity.
Qed.

(** Whatever the environment and the fuel, what a turn has done is the
    beginning of one of its three courses. *)
Lemma turn_calls_cases (env : oracle) (fuel : nat) (h : list call) :
  exists made todo,
    fst (exec env fuel h loop) = h ++ made /\ turn_shape (made ++ todo).
Proof.
  destruct (exec_calls_below env fuel (17 + fuel) h loop)
    as (made & todo & Hmade & Hbig); [lia|].
  destruct (turn_returns env fuel h) as (whole & rest & Hexec & Hshape).
  rewrite Hexec in Hbig. cbn [fst] in Hbig. apply app_inv_head in Hbig.
  exists made, todo. split; [exact Hmade|]. rewrite <- Hbig. exact Hshape.
Qed.

(** A turn that has returned has gone a whole course. *)
Lemma turn_returned (env : oracle) (fuel : nat) (h h' : list call)
    (r : unit * nat) :
  exec env fuel h loop = (h', Some r) ->
  exists made, h' = h ++ made /\ turn_shape made.
Proof.
  intros Hexec. destruct r as [r rest].
  destruct (turn_returns env fuel h) as (made & rest' & Hbig & Hshape).
  pose proof (exec_more env fuel h loop h' r rest 17 Hexec) as Hmore.
  rewrite Nat.add_comm, Hbig in Hmore.
  exists made. split; [congruence|exact Hshape].
Qed.

(** An invariant of the endless loop, in two parts: [P] holds between two
    turns, [Q] at every moment. *)
Lemma exec_forever_between {R T : Type} (env : oracle)
    (P Q : list call -> Prop) (body : itree hwE R) :
  (forall n h, P h -> Q (fst (exec env n h body))) ->
  (forall n h h' r, P h -> exec env n h body = (h', Some r) -> P h') ->
  forall fuel h, P h ->
    Q (fst (exec env fuel h (ITree.forever body : itree hwE T))).
Proof.
  intros Hany Hdone fuel.
  induction fuel as [fuel IH] using (well_founded_induction lt_wf).
  intros h Hh. rewrite exec_forever.
  pose proof (Hany fuel h Hh) as Hq.
  destruct (exec env fuel h body) as [h' [[r [|rest]]|]] eqn:E;
    cbn [fst] in *; try exact Hq.
  apply IH.
  - apply exec_rest_le in E. lia.
  - exact (Hdone fuel h h' (r, S rest) Hh E).
Qed.

(** An invariant of the sketch: [Q] at every moment, for which [P] is to
    hold when [setup] has returned and between two turns of [loop]. *)
Lemma sketch_invariant (env : oracle) (P Q : list call -> Prop) :
  (forall fuel, Q (fst (exec env fuel [] setup))) ->
  (forall fuel h r, exec env fuel [] setup = (h, Some r) -> P h) ->
  (forall n h, P h -> Q (fst (exec env n h loop))) ->
  (forall n h h' r, P h -> exec env n h loop = (h', Some r) -> P h') ->
  forall fuel, Q (fst (exec env fuel [] sketch)).
Proof.
  intros Hsetup Hstart Hany Hdone fuel.
  unfold sketch. rewrite exec_bind.
  pose proof (Hsetup fuel) as Hq. pose proof (Hstart fuel) as Hp.
  destruct (exec env fuel [] setup) as [h' [[r rest]|]];
    cbn [fst] in Hq; [|exact Hq].
  apply (exec_forever_between env P Q loop Hany Hdone).
  exact (Hp h' (r, rest) eq_refl).
Qed.


(** * What comes before what *)

Lemma never_app (need : call -> bool) (a b : list call) :
  never need (a ++ b) = never need a && never need b.
Proof. unfold never. apply forallb_app. Qed.

Lemma guarded_app (ready need : call -> bool) (a b : list call) :
  forall seen,
    guarded ready need seen (a ++ b) =
    guarded ready need seen a &&
    guarded ready need (seen || existsb ready a) b.
Proof.
  induction a as [|c a IH]; intros seen; cbn [app guarded existsb].
  - rewrite orb_false_r. reflexivity.
  - rewrite IH, orb_assoc, andb_assoc. reflexivity.
Qed.

Lemma guarded_front (ready need : call -> bool) (seen : bool)
    (a b : list call) :
  guarded ready need seen (a ++ b) = true -> guarded ready need seen a = true.
Proof. rewrite guarded_app. intros H. apply andb_prop in H. tauto. Qed.

Lemma guarded_seen (ready need : call -> bool) (h : list call) :
  guarded ready need true h = true.
Proof.
  induction h as [|c h IH]; [reflexivity|].
  cbn [guarded orb]. rewrite orb_true_r, IH. reflexivity.
Qed.

Lemma guarded_never (ready need : call -> bool) (h : list call) :
  never need h = true -> forall seen, guarded ready need seen h = true.
Proof.
  unfold never. induction h as [|c h IH]; intros Hnever seen; [reflexivity|].
  cbn [forallb guarded] in *. apply andb_prop in Hnever as [Hc Hh].
  rewrite Hc, (IH Hh). reflexivity.
Qed.

Lemma guarded_sooner (ready need : call -> bool) (h : list call) :
  forall seen seen',
    (seen = true -> seen' = true) ->
    guarded ready need seen h = true -> guarded ready need seen' h = true.
Proof.
  induction h as [|c h IH]; intros seen seen' Hle; [reflexivity|].
  cbn [guarded]. intros H. apply andb_prop in H as [Hc Hh].
  apply andb_true_intro. split.
  - destruct (need c); [|reflexivity]. cbn [negb orb] in *. auto.
  - apply (IH (seen || ready c) (seen' || ready c)); [|exact Hh].
    destruct seen; cbn [orb]; [rewrite Hle; reflexivity|].
    destruct seen'; cbn [orb]; auto.
Qed.

Lemma guarded_flashes (ready need : call -> bool) (seen : bool) (k : nat) :
  guarded ready need seen flash_calls = true ->
  guarded ready need seen (flashes k) = true.
Proof.
  intros Hone. induction k as [|k IH]; [reflexivity|].
  cbn [flashes]. rewrite guarded_app, Hone.
  apply (guarded_sooner ready need _ seen); [|exact IH].
  intros ->. reflexivity.
Qed.

Lemma locked_out_flashes (k : nat) :
  locked_out k =
  (boot_calls ++ [Call (DigitalRead PW_BUTA) LOW] ++ lockout_calls) ++
  flashes k.
Proof. unfold locked_out. rewrite <- !app_assoc. reflexivity. Qed.

Lemma guarded_locked_out (ready need : call -> bool) (k : nat) :
  guarded ready need false (locked_out 1) = true ->
  guarded ready need false (locked_out k) = true.
Proof.
  rewrite !locked_out_flashes, !guarded_app.
  intros H. apply andb_prop in H as [Hbase Hone].
  rewrite Hbase. apply guarded_flashes.
  cbn [flashes] in Hone. rewrite app_nil_r in Hone. exact Hone.
Qed.

(** An order that the three courses of [setup] keep, and that either is
    settled when [setup] returns or is never at stake in a turn of [loop],
    is kept by the sketch at every moment. *)
Lemma guarded_in_sketch (ready need : call -> bool) :
  guarded ready need false
    [Call (DisplayBegin SSD1306_SWITCHCAPVCC 0x3C) false] = true ->
  guarded ready need false (locked_out 1) = true ->
  (forall b f m, guarded ready need false (started_calls b f m) = true) ->
  (forall b f m, existsb ready (started_calls b f m) = true) \/
  (forall made, turn_shape made -> never need made = true) ->
  forall (env : oracle) (fuel : nat),
    guarded ready need false (fst (exec env fuel [] sketch)) = true.
Proof.
  intros Hfail Hlock Hstart Hturn env.
  apply (sketch_invariant env
           (fun h => guarded ready need false h = true /\
                     (existsb ready h = true \/
                      forall made, turn_shape made ->
                                   never need made = true))
           (fun h => guarded ready need false h = true)).
  - intros fuel. destruct (setup_calls_cases env fuel) as [todo Hshape].
    apply (guarded_front _ _ _ _ todo).
    destruct Hshape as [->|[[k ->]|(b & f & m & ->)]].
    + exact Hfail.
    + apply guarded_locked_out. exact Hlock.
    + apply Hstart.
  - intros fuel h r Hexec.
    apply setup_returned in Hexec as (_ & _ & b & f & m & ->).
    split; [apply Hstart|].
    destruct Hturn as [Hseen|Hnever]; [left; apply Hseen|right; exact Hnever].
  - intros n h [Hh Hok].
    destruct (turn_calls_cases env n h) as (made & todo & -> & Hshape).
    rewrite guarded_app, Hh. cbn [andb orb].
    destruct Hok as [Hseen|Hnever].
    + rewrite Hseen. apply guarded_seen.
    + apply guarded_never. specialize (Hnever _ Hshape).
      rewrite never_app in Hnever. apply andb_prop in Hnever. tauto.
  - intros n h h' r [Hh Hok] Hexec.
    apply turn_returned in Hexec as (made & -> & Hshape).
    split.
    + rewrite guarded_app, Hh. cbn [andb orb].
      destruct Hok as [Hseen|Hnever].
      * rewrite Hseen. apply guarded_seen.
      * apply guarded_never. apply Hnever. exact Hshape.
    + destruct Hok as [Hseen|Hnever]; [left|right; exact Hnever].
      rewrite existsb_app, Hseen. reflexivity.
Qed.

Ltac turn_courses :=
  let made := fresh "made" in
  intros made [->|[->|(? & ? & ->)]]; reflexivity.

(** X1: [setup] returns exactly when [display.begin] answers [true] and
    the button [PW_BUTA] reads [HIGH] at the interlock check; in every other
    case it never returns, whatever the fuel. *)
Theorem setup_returns_iff (env : oracle) :
  (exists fuel : nat, snd (run env fuel [] setup) = Some tt) <->
  env [] (DisplayBegin SSD1306_SWITCHCAPVCC 0x3C) = true /\
  env boot_calls (DigitalRead PW_BUTA) = HIGH.
Proof.
  split.
  - intros [fuel Hret]. rewrite run_exec in Hret. cbn [snd] in Hret.
    destruct (exec env fuel [] setup) as [h [r|]] eqn:Hexec;
      [|discriminate].
    apply setup_returned in Hexec. tauto.
  - intros [Hbegin Hbuta]. exists (24 + 0)%nat.
    apply (setup_started_trace env Hbegin Hbuta 0).
Qed.

(** X2: in the sketch, whatever the environment and however long it runs,
    every call on the radio driver comes after a read of the button
    [PW_BUTA] that gave [HIGH]: the radio is not touched unless the
    interlock has been passed. *)
Theorem radio_only_after_button_released (env : oracle) (fuel : nat) :
  guarded button_released on_radio false (fst (run env fuel [] sketch))
  = true.
Proof.
  rewrite run_exec. cbn [fst].
  apply guarded_in_sketch; try reflexivity.
  - intros [] f m; reflexivity.
  - left. intros [] f m; reflexivity.
Qed.

(** X3: in the sketch, at every moment, every call on the display other
    than [begin] comes after a [display.begin] that answered [true], every
    [Serial.println] after [Serial.begin], and every call on the radio
    other than [init] after [rf69.init]. *)
Theorem drivers_begun_before_use (env : oracle) (fuel : nat) :
  guarded display_began uses_display false (fst (run env fuel [] sketch))
  = true /\
  guarded serial_opened uses_serial false (fst (run env fuel [] sketch))
  = true /\
  guarded radio_inited uses_radio false (fst (run env fuel [] sketch))
  = true.
Proof.
  rewrite run_exec. cbn [fst].
  repeat split; apply guarded_in_sketch; try reflexivity;
    try (intros [] f m; reflexivity);
    left; intros [] f m; reflexivity.
Qed.

(** X4: in the sketch, at every moment and for every pin, every
    [digitalWrite] or [analogWrite] on the pin comes after
    [pinMode(pin, OUTPUT)] and every [digitalRead] of it after a [pinMode]
    that made it an input. *)
Theorem pins_configured_before_use (env : oracle) (fuel : nat)
    (p : board_pin) :
  guarded (made_output p) (drives_pin p) false (fst (run env fuel [] sketch))
  = true /\
  guarded (made_input p) (reads_pin p) false (fst (run env fuel [] sketch))
  = true.
Proof.
  rewrite run_exec. cbn [fst].
  split; destruct p; apply guarded_in_sketch; try reflexivity;
    try (intros [] f m; reflexivity);
    first [ left; intros [] f m; reflexivity | right; turn_courses ].
Qed.


(** * The receive protocol *)

Lemma rx_check_app (a b : list call) :
  forall s,
    rx_check s (a ++ b) =
    match rx_check s a with
    | Some s' => rx_check s' b
    | None => None
    end.
Proof.
  induction a as [|c a IH]; intros s; cbn [app rx_check]; [reflexivity|].
  destruct (rx_step s c); [apply IH|reflexivity].
Qed.

Lemma rx_check_front (s : rx_state) (a b : list call) :
  rx_check s (a ++ b) <> None -> rx_check s a <> None.
Proof.
  rewrite rx_check_app. destruct (rx_check s a); congruence.
Qed.

Lemma rx_check_flashes (s : rx_state) (k : nat) :
  rx_check s (flashes k) = Some s.
Proof.
  induction k as [|k IH]; [reflexivity|].
  cbn [flashes]. rewrite rx_check_app. exact IH.
Qed.

Lemma rx_check_setup (h : list call) :
  setup_shape h -> rx_check Polling h = Some Polling.
Proof.
  intros [->|[[k ->]|(b & f & m & ->)]].
  - reflexivity.
  - rewrite locked_out_flashes, rx_check_app. apply rx_check_flashes.
  - destruct b; reflexivity.
Qed.

Lemma rx_check_turn (s : rx_state) (made : list call) :
  turn_shape made -> rx_check s made <> None.
Proof.
  intros [->|[->|(payload & v & ->)]]; destruct s; discriminate.
Qed.

(** X5: in the sketch, at every moment, [recv] has only been called after
    [available] said [true] with no other question to the radio in
    between, and [lastRssi] only after a [recv] that said [true]. *)
Theorem receive_protocol_kept (env : oracle) (fuel : nat) :
  rx_check Polling (fst (run env fuel [] sketch)) <> None.
Proof.
  rewrite run_exec. cbn [fst].
  apply (sketch_invariant env
           (fun h => rx_check Polling h <> None)
           (fun h => rx_check Polling h <> None)).
  - intros n. destruct (setup_calls_cases env n) as [todo Hshape].
    apply (rx_check_front _ _ todo).
    rewrite (rx_check_setup _ Hshape). discriminate.
  - intros n h r Hexec.
    apply setup_returned in Hexec as (_ & _ & b & f & m & ->).
    destruct b; discriminate.
  - intros n h Hh.
    destruct (turn_calls_cases env n h) as (made & todo & -> & Hshape).
    rewrite rx_check_app.
    destruct (rx_check Polling h) as [s|]; [|congruence].
    apply (rx_check_front _ _ todo). apply rx_check_turn. exact Hshape.
  - intros n h h' r Hh Hexec.
    apply turn_returned in Hexec as (made & -> & Hshape).
    rewrite rx_check_app.
    destruct (rx_check Polling h) as [s|]; [|congruence].
    apply rx_check_turn. exact Hshape.
Qed.

(** * One turn of the receiver *)

(** X6: a turn of [loop] in which [available] says [false] makes that one
    call and returns: it drives no pin, leaves the display and the serial
    port alone and does not wait, and the endless loop goes straight into
    its next turn. *)
Theorem idle_turn_does_nothing (env : oracle) (h : list call) :
  env h Rf69Available = false ->
  forall fuel : nat,
    run env (1 + fuel) h loop = (h ++ [Call Rf69Available false], Some tt) /\
    ops_where is_output_op (h ++ [Call Rf69Available false]) =
      ops_where is_output_op h /\
    delay_total [Call Rf69Available false] = 0 /\
    run env (2 + fuel) h (ITree.forever loop : itree hwE unit) =
      run env fuel (h ++ [Call Rf69Available false]) (ITree.forever loop).
Proof.
  intros Havail fuel. split; [|split; [|split]].
  - unfold loop. rewrite run_exec, (loop_receiver_idle env h Havail fuel).
    reflexivity.
  - rewrite ops_where_app. apply app_nil_r.
  - reflexivity.
  - apply (run_forever_turn env (1 + S fuel) fuel h _ loop tt).
    apply (loop_receiver_idle env h Havail (S fuel)).
Qed.

(** X6 on the test bench: a radio with nothing to deliver. *)
Lemma idle_turn_does_nothing_witness :
  let env := bench true HIGH true false None 0 in
  env [] Rf69Available = false /\
  run env (1 + 4) [] loop = ([] ++ [Call Rf69Available false], Some tt).
Proof.
  cbv zeta. split; [reflexivity|].
  exact (proj1 (idle_turn_does_nothing (bench true HIGH true false None 0) []
                  eq_refl 4%nat)).
Defined.

(** X7: whatever the environment and the history, a turn of [loop] returns
    within 17 steps, having made at most 17 calls and waited at most 50 ms
    in [delay]. *)
Theorem turn_is_bounded (env : oracle) (h : list call) (fuel : nat) :
  exists made : list call,
    run env (17 + fuel) h loop = (h ++ made, Some tt) /\
    (List.length made <= 17)%nat /\
    0 <= delay_total made <= 50.
Proof.
  destruct (turn_returns env fuel h) as (made & rest & Hexec & Hshape).
  exists made. split.
  - rewrite run_exec, Hexec. reflexivity.
  - destruct Hshape as [->|[->|(payload & v & ->)]]; cbn; lia.
Qed.


(** * Between two turns *)

Lemma at_polls_app (P : list call -> bool) (a b : list call) :
  forall before,
    at_polls P before (a ++ b) =
    at_polls P before a && at_polls P (before ++ a) b.
Proof.
  induction a as [|c a IH]; intros before; cbn [app at_polls].
  - rewrite app_nil_r. reflexivity.
  - rewrite IH, <- app_assoc, andb_assoc. reflexivity.
Qed.

Lemma at_polls_front (P : list call -> bool) (before a b : list call) :
  at_polls P before (a ++ b) = true -> at_polls P before a = true.
Proof. rewrite at_polls_app. intros H. apply andb_prop in H. tauto. Qed.

Lemma at_polls_never (P : list call -> bool) (h : list call) :
  never is_poll h = true -> forall before, at_polls P before h = true.
Proof.
  unfold never. induction h as [|c h IH]; intros Hnever before;
    [reflexivity|].
  cbn [forallb at_polls] in *. apply andb_prop in Hnever as [Hc Hh].
  rewrite Hc, (IH Hh). reflexivity.
Qed.

Lemma never_flashes (need : call -> bool) (k : nat) :
  never need flash_calls = true -> never need (flashes k) = true.
Proof.
  intros Hone. induction k as [|k IH]; [reflexivity|].
  cbn [flashes]. rewrite never_app, Hone, IH. reflexivity.
Qed.

Lemma setup_never_polls (h : list call) :
  setup_shape h -> never is_poll h = true.
Proof.
  intros [->|[[k ->]|(b & f & m & ->)]].
  - reflexivity.
  - rewrite locked_out_flashes, never_app, never_flashes; reflexivity.
  - destruct b; reflexivity.
Qed.

Lemma at_polls_turn (P : list call -> bool) (h made : list call) :
  P h = true -> turn_shape made -> at_polls P h made = true.
Proof.
  intros HP [->|[->|(payload & v & ->)]];
    unfold bad_frame_calls, good_frame_calls, display_rssi_calls;
    cbn [app at_polls is_poll call_op negb orb]; rewrite HP; reflexivity.
Qed.

(** What holds when [setup] has returned and is kept by every whole turn of
    [loop] holds each time the sketch polls the radio. *)
Lemma at_polls_in_sketch (P : list call -> bool) :
  (forall b f m, P (started_calls b f m) = true) ->
  (forall h made, P h = true -> turn_shape made -> P (h ++ made) = true) ->
  forall (env : oracle) (fuel : nat),
    at_polls P [] (fst (exec env fuel [] sketch)) = true.
Proof.
  intros Hstart Hturn env.
  apply (sketch_invariant env
           (fun h => at_polls P [] h = true /\ P h = true)
           (fun h => at_polls P [] h = true)).
  - intros fuel. destruct (setup_calls_cases env fuel) as [todo Hshape].
    apply (at_polls_front _ _ _ todo).
    apply at_polls_never, setup_never_polls. exact Hshape.
  - intros fuel h r Hexec.
    apply setup_returned in Hexec as (_ & _ & b & f & m & ->).
    split; [|apply Hstart].
    apply at_polls_never, setup_never_polls.
    right. right. exists b, f, m. reflexivity.
  - intros n h [Hh HP].
    destruct (turn_calls_cases env n h) as (made & todo & -> & Hshape).
    rewrite at_polls_app, Hh. cbn [andb app].
    apply (at_polls_front _ _ _ todo). apply at_polls_turn; assumption.
  - intros n h h' r [Hh HP] Hexec.
    apply turn_returned in Hexec as (made & -> & Hshape).
    split; [|apply Hturn; assumption].
    rewrite at_polls_app, Hh. cbn [andb app].
    apply at_polls_turn; assumption.
Qed.

Lemma last_drive_app (p : board_pin) (h made : list call) :
  last_drive p (h ++ made) =
  match last_drive p made with
  | Some o => Some o
  | None => last_drive p h
  end.
Proof.
  unfold last_drive. rewrite ops_where_app, rev_app_distr.
  destruct (rev (ops_where (drives p) made)); reflexivity.
Qed.

Lemma resting_turn (h made : list call) :
  resting h = true -> turn_shape made -> resting (h ++ made) = true.
Proof.
  unfold resting. rewrite !last_drive_app.
  intros Hrest [->|[->|(payload & v & ->)]].
  - exact Hrest.
  - change (last_drive RED_LED bad_frame_calls) with (@None op).
    change (last_drive BI_LEDA bad_frame_calls) with (@None op).
    change (last_drive GRN_LED bad_frame_calls) with (@None op).
    change (last_drive BI_LEDB bad_frame_calls)
      with (Some (DigitalWrite BI_LEDB LOW)).
    destruct (last_drive RED_LED h) as [[]|]; try discriminate.
    destruct l; try discriminate.
    destruct (last_drive BI_LEDA h) as [[]|]; try discriminate.
    destruct l; try discriminate.
    destruct (last_drive BI_LEDB h) as [[]|]; try discriminate.
    destruct l; try discriminate.
    exact Hrest.
  - change (last_drive RED_LED (good_frame_calls payload v))
      with (@None op).
    change (last_drive BI_LEDA (good_frame_calls payload v))
      with (@None op).
    change (last_drive BI_LEDB (good_frame_calls payload v))
      with (@None op).
    change (last_drive GRN_LED (good_frame_calls payload v))
      with (Some (AnalogWrite GRN_LED LED_LOW)).
    destruct (last_drive RED_LED h) as [[]|]; try discriminate.
    destruct l; try discriminate.
    destruct (last_drive BI_LEDA h) as [[]|]; try discriminate.
    destruct l; try discriminate.
    destruct (last_drive BI_LEDB h) as [[]|]; try discriminate.
    destruct l; try discriminate.
    reflexivity.
Qed.

(** X8: each time the sketch asks the radio whether a frame is there, that
    is between any two turns of the service loop, the indicators are at
    rest: the red LED and both halves of the bi-colour LED were last driven
    low, and the green LED is off or at its low PWM level. *)
Theorem indicators_rest_between_turns (env : oracle) (fuel : nat) :
  at_polls resting [] (fst (run env fuel [] sketch)) = true.
Proof.
  rewrite run_exec. cbn [fst].
  apply at_polls_in_sketch.
  - intros [] f m; reflexivity.
  - exact resting_turn.
Qed.

Lemma flushed_turn (h made : list call) :
  flushed h = true -> turn_shape made -> flushed (h ++ made) = true.
Proof.
  unfold flushed. rewrite ops_where_app, rev_app_distr.
  intros Hflushed [->|[->|(payload & v & ->)]].
  - exact Hflushed.
  - exact Hflushed.
  - reflexivity.
Qed.

(** X9: each time the sketch asks the radio whether a frame is there, the
    last call on the display was [display()]: nothing drawn is left
    unshown between two turns. *)
Theorem display_flushed_between_turns (env : oracle) (fuel : nat) :
  at_polls flushed [] (fst (run env fuel [] sketch)) = true.
Proof.
  rewrite run_exec. cbn [fst].
  apply at_polls_in_sketch.
  - intros [] f m; reflexivity.
  - exact flushed_turn.
Qed.

Lemma same_numbers_spec (a b : list Z) : same_numbers a b = true <-> a = b.
Proof.
  unfold same_numbers. destruct (list_eq_dec Z.eq_dec a b); split;
    congruence.
Qed.

Lemma serial_lines_app (a b : list call) :
  serial_lines (a ++ b) = serial_lines a ++ serial_lines b.
Proof. apply flat_map_app. Qed.

Lemma rssi_reads_app (a b : list call) :
  rssi_reads (a ++ b) = rssi_reads a ++ rssi_reads b.
Proof. apply flat_map_app. Qed.

Lemma displayed_values_app (a b : list call) :
  displayed_values (a ++ b) = displayed_values a ++ displayed_values b.
Proof. apply flat_map_app. Qed.

Lemma count_where_app (f : call -> bool) (a b : list call) :
  count_where f (a ++ b) = (count_where f a + count_where f b)%nat.
Proof. unfold count_where. rewrite filter_app. apply length_app. Qed.

Lemma logged_spec (h : list call) :
  logged h = true <->
  serial_lines h = rssi_reads h /\
  displayed_values h = rssi_reads h /\
  List.length (rssi_reads h) = count_where frame_accepted h.
Proof.
  unfold logged.
  rewrite !andb_true_iff, !same_numbers_spec, Nat.eqb_eq. tauto.
Qed.

(** The books of each course of a turn. *)
Lemma turn_books (made : list call) :
  turn_shape made ->
  serial_lines made = rssi_reads made /\
  displayed_values made = rssi_reads made /\
  List.length (rssi_reads made) = count_where frame_accepted made /\
  count_where error_pulse made = count_where frame_rejected made.
Proof.
  intros [->|[->|(payload & v & ->)]]; repeat split.
Qed.

Lemma logged_turn (h made : list call) :
  logged h = true -> turn_shape made -> logged (h ++ made) = true.
Proof.
  rewrite !logged_spec. intros (Hs & Hd & Hn) Hshape.
  destruct (turn_books made Hshape) as (Ms & Md & Mn & _).
  rewrite serial_lines_app, displayed_values_app, rssi_reads_app,
    count_where_app, length_app.
  rewrite Hs, Hd, Hn, Ms, Md, Mn. repeat split.
Qed.

(** X10: each time the sketch asks the radio whether a frame is there, the
    numbers printed on the serial port so far and the numbers put on the
    display so far are, in order, exactly the signal strengths [lastRssi]
    has returned so far, and there is one of them for each frame [recv] has
    taken. *)
Theorem every_frame_logged_once (env : oracle) (fuel : nat) :
  at_polls logged [] (fst (run env fuel [] sketch)) = true.
Proof.
  rewrite run_exec. cbn [fst].
  apply at_polls_in_sketch.
  - intros b f m. apply logged_spec. destruct b; repeat split.
  - exact logged_turn.
Qed.

Lemma pulsed_turn (h made : list call) :
  pulsed h = true -> turn_shape made -> pulsed (h ++ made) = true.
Proof.
  unfold pulsed. rewrite !Nat.eqb_eq. intros Hp Hshape.
  destruct (turn_books made Hshape) as (_ & _ & _ & Mp).
  rewrite !count_where_app, Hp, Mp. reflexivity.
Qed.

(** X11: each time the sketch asks the radio whether a frame is there, the
    error indicator [BI_LEDB] has been switched on exactly once for each
    frame [recv] has refused so far. *)
Theorem every_bad_frame_pulses_once (env : oracle) (fuel : nat) :
  at_polls pulsed [] (fst (run env fuel [] sketch)) = true.
Proof.
  rewrite run_exec. cbn [fst].
  apply at_polls_in_sketch.
  - intros [] f m; reflexivity.
  - exact pulsed_turn.
Qed.


(** * The transmitter body *)

Lemma exec_loop_transmitter (env : oracle) (h : list call) (fuel : nat) :
  exists sent waited : bool,
    exec env (3 + fuel) h loop_transmitter =
    (h ++ [ Call (Rf69Send data 26) sent;
            Call Rf69WaitPacketSent waited;
            Call (Delay 20) tt ],
     Some (tt, fuel)).
Proof.
  eexists. eexists. unfold loop_transmitter. open_calls. cbn [Nat.add].
  do 2 run_call. last_call. rewrite <- !app_assoc. reflexivity.
Qed.

(** X12: whatever the environment and the history, and whatever [send] and
    [waitPacketSent] answer, a turn of [loop_transmitter] makes three calls
    and returns: [send] with the 26 bytes of [data], which fit one message
    of the driver, then [waitPacketSent], then a wait of 20 ms.  A failed
    [send] is neither repeated nor reported: the display, the pins and the
    serial port are left alone. *)
Theorem transmitter_turn (env : oracle) (h : list call) (fuel : nat) :
  exists (sent waited : bool) (made : list call),
    run env (3 + fuel) h loop_transmitter = (h ++ made, Some tt) /\
    made = [ Call (Rf69Send data 26) sent;
             Call Rf69WaitPacketSent waited;
             Call (Delay 20) tt ] /\
    Z.of_nat (List.length data) = 26 /\
    26 <= RH_RF69_MAX_MESSAGE_LEN /\
    ops_where is_display_op (h ++ made) = ops_where is_display_op h /\
    ops_where is_serial_op (h ++ made) = ops_where is_serial_op h /\
    (forall p, ops_where (drives p) (h ++ made) = ops_where (drives p) h).
Proof.
  destruct (exec_loop_transmitter env h fuel) as (sent & waited & Hexec).
  exists sent, waited. eexists. split; [|split; [reflexivity|]].
  - rewrite run_exec, Hexec. reflexivity.
  - repeat split; try discriminate;
      intros; rewrite ops_where_app; apply app_nil_r.
Qed.

(** * The bar within its range *)

(** X13: with the Arduino core's [map], for every two signal strengths
    whose linear-map values fit the [int16_t] width parameter of [fillRect]
    (from -27407 to 27206), the width that [display_rssi] hands to
    [fillRect] lies within the screen, from 0 to [SCREEN_WIDTH], exactly
    when the signal strength lies from -100 to -20 dBm, and the stronger
    signal never gets the narrower bar. *)
Theorem bar_tracks_signal (rssi_val stronger : Z) :
  -32768 <= (rssi_val + 100) * SCREEN_WIDTH ÷ 80 <= 32767 ->
  -32768 <= (stronger + 100) * SCREEN_WIDTH ÷ 80 <= 32767 ->
  forall (env : oracle) (fuel : nat) (h : list call),
  exists w w' : Z,
    fill_widths
      (calls_since h
         (fst (run env (10 + fuel) h (display_rssi rssi_val)))) = [w] /\
    fill_widths
      (calls_since h
         (fst (run env (10 + fuel) h (display_rssi stronger)))) = [w'] /\
    (0 <= w <= SCREEN_WIDTH <-> -100 <= rssi_val <= -20) /\
    (rssi_val <= stronger -> w <= w').
Proof.
  intros Hfit16 Hfit16' env fuel h.
  assert (Hfit : - 2 ^ 31 <= (rssi_val + 100) * SCREEN_WIDTH < 2 ^ 31)
    by (unfold SCREEN_WIDTH in *; Z.to_euclidean_division_equations; lia).
  assert (Hfit' : - 2 ^ 31 <= (stronger + 100) * SCREEN_WIDTH < 2 ^ 31)
    by (unfold SCREEN_WIDTH in *; Z.to_euclidean_division_equations; lia).
  exists ((rssi_val + 100) * SCREEN_WIDTH ÷ 80),
         ((stronger + 100) * SCREEN_WIDTH ÷ 80).
  split; [|split].
  - rewrite display_rssi_fill_width, (barwidth_linear rssi_val Hfit),
      (int16_t_small _ Hfit16).
    reflexivity.
  - rewrite display_rssi_fill_width, (barwidth_linear stronger Hfit'),
      (int16_t_small _ Hfit16').
    reflexivity.
  - unfold SCREEN_WIDTH in *.
    split; [split|]; intros H; Z.to_euclidean_division_equations; lia.
Qed.

(** X13 at -60 dBm and -40 dBm: [fillRect] receives 48 and 72. *)
Lemma bar_tracks_signal_witness :
  let env := bench true HIGH true true None 0 in
  -32768 <= (-60 + 100) * SCREEN_WIDTH ÷ 80 <= 32767 /\
  -32768 <= (-40 + 100) * SCREEN_WIDTH ÷ 80 <= 32767 /\
  exists w w' : Z,
    fill_widths
      (calls_since []
         (fst (run env (10 + 0) [] (display_rssi (-60))))) = [w] /\
    fill_widths
      (calls_since []
         (fst (run env (10 + 0) [] (display_rssi (-40))))) = [w'] /\
    (0 <= w <= SCREEN_WIDTH <-> -100 <= -60 <= -20) /\
    (-60 <= -40 -> w <= w').
Proof.
  cbv zeta.
  assert (H60 : -32768 <= (-60 + 100) * SCREEN_WIDTH ÷ 80 <= 32767)
    by (vm_compute; split; discriminate).
  assert (H40 : -32768 <= (-40 + 100) * SCREEN_WIDTH ÷ 80 <= 32767)
    by (vm_compute; split; discriminate).
  split; [exact H60|]. split; [exact H40|].
  exact (bar_tracks_signal (-60) (-40) H60 H40
           (bench true HIGH true true None 0) 0%nat []).
Defined.
